(** * Knowledge-graph visualizer: validation and graph building

    A shallow embedding of [src/main.py] ([visualize_graph],
    [extract_graph_data], [generate_knowledge_graph_async]) and of the
    size-limit handling of [src/app.py] ([truncate_text],
    [handle_graph_generation] and the two input paths of the page script).

    Conventions.
    - A Python [str] is a [string]; a character is read as the code point
      of its byte (0..255).  [len] is [String.length].
    - A Python [dict] keyed by node id is a [gmap string _]; a Python [set]
      of ids is a [gset string].  The order in which a [set] is iterated is
      not fixed by the language, so the builder takes it as an argument.
    - A call that may raise returns a [result]; [print] and the calls to the
      user interface are recorded as a list of [event]s. *)

From stdpp Require Import base option list sets gmap strings.
From Stdlib Require Import ZArith Ascii.

Local Open Scope list_scope.
#[local] Set Warnings "-clear-no-such-hyp".

(** ** The extraction data model (langchain's graph documents) *)

Record Node := mkNode {
  node_id : string;
  node_type : string;
  node_properties : list (string * string)
}.

Record Relationship := mkRelationship {
  source : Node;
  target : Node;
  rel_type : string;
  rel_properties : list (string * string)
}.

Record GraphDocument := mkGraphDocument {
  nodes : list Node;
  relationships : list Relationship
}.

#[global] Instance Node_eq_dec : EqDecision Node.
Proof. solve_decision. Defined.

#[global] Instance Relationship_eq_dec : EqDecision Relationship.
Proof. solve_decision. Defined.

(** ** Validation (main.py, lines 78-87) *)

(** [node_dict = {node.id: node for node in nodes}]: a later node with the
    same id replaces an earlier one. *)
Definition node_dict (nodes : list Node) : gmap string Node :=
  foldl (λ d node, <[node_id node := node]> d) ∅ nodes.

(** [k in d] on a dict. *)
Definition contains (d : gmap string Node) (k : string) : bool :=
  match d !! k with
  | Some _ => true
  | None => false
  end.

(** The test of line 85. *)
Definition endpoints_known (d : gmap string Node) (rel : Relationship) : bool :=
  contains d (node_id (source rel)) && contains d (node_id (target rel)).

(** One turn of the loop of lines 84-87, on the pair
    [(valid_edges, valid_node_ids)]. *)
Definition validate_step (d : gmap string Node)
    (acc : list Relationship * gset string) (rel : Relationship)
  : list Relationship * gset string :=
  if endpoints_known d rel
  then (acc.1 ++ [rel],
        acc.2 ∪ {[ node_id (source rel) ]} ∪ {[ node_id (target rel) ]})
  else acc.

Definition validate_from (d : gmap string Node)
    (acc : list Relationship * gset string) (rels : list Relationship)
  : list Relationship * gset string :=
  foldl (validate_step d) acc rels.

(** Lines 79-87: the lookup, then the loop from [([], set())]. *)
Definition validate (nodes : list Node) (rels : list Relationship)
  : list Relationship * gset string :=
  validate_from (node_dict nodes) ([], ∅) rels.

Definition valid_edges (nodes : list Node) (rels : list Relationship) :=
  (validate nodes rels).1.

Definition valid_node_ids (nodes : list Node) (rels : list Relationship) :=
  (validate nodes rels).2.

(** The ids mentioned by a list of relationships. *)
Definition endpoint_ids (rels : list Relationship) : gset string :=
  list_to_set (flat_map (λ rel, [node_id (source rel); node_id (target rel)]) rels).

(** The ids of a node list. *)
Definition ids_of (nodes : list Node) : gset string :=
  list_to_set (map node_id nodes).


(** ** Strings as Python uses them *)

(** [len(s)]. *)
Definition len (s : string) : Z := Z.of_nat (String.length s).

(** [str.isspace] on one character (code points below 256). *)
Definition is_space (c : ascii) : bool :=
  let n := nat_of_ascii c in
  ((9 <=? n) && (n <=? 13)) || ((28 <=? n) && (n <=? 32))
  || (n =? 133) || (n =? 160).

Fixpoint lstrip (s : string) : string :=
  match s with
  | EmptyString => EmptyString
  | String c s' => if is_space c then lstrip s' else s
  end.

Fixpoint rstrip (s : string) : string :=
  match s with
  | EmptyString => EmptyString
  | String c s' =>
      match rstrip s' with
      | EmptyString => if is_space c then EmptyString else String c EmptyString
      | r => String c r
      end
  end.

(** [s.strip()]. *)
Definition strip (s : string) : string := rstrip (lstrip s).

(** [str.lower] on one character (code points below 256). *)
Definition lower_char (c : ascii) : ascii :=
  let n := nat_of_ascii c in
  if ((65 <=? n) && (n <=? 90))
     || ((192 <=? n) && (n <=? 222) && negb (n =? 215))
  then ascii_of_nat (n + 32) else c.

(** [s.lower()]. *)
Fixpoint lower (s : string) : string :=
  match s with
  | EmptyString => EmptyString
  | String c s' => String (lower_char c) (lower s')
  end.

(** [s[:limit]], with Python's reading of a negative bound. *)
Definition slice_to (s : string) (limit : Z) : string :=
  let stop := if (limit <? 0)%Z then Z.max 0 (len s + limit) else Z.min (len s) limit in
  String.substring 0 (Z.to_nat stop) s.

(** Truth value of a [str] and of a [list]. *)
Definition truthy_str (s : string) : bool :=
  match s with EmptyString => false | _ => true end.

(** ** The rendered graph *)

(** The options a vertex is stored with. *)
Record Vertex := mkVertex {
  v_id : string;
  v_label : string;
  v_shape : string;
  v_font_color : string;
  v_title : string;
  v_group : string
}.

(** The options an edge is stored with. *)
Record Edge := mkEdge {
  e_from : string;
  e_to : string;
  e_arrows : string;
  e_label : string
}.

(** A decimal literal [mantissa * 10^(-places)]. *)
Record decimal := mkDecimal { mantissa : Z; places : nat }.

(** The physics options of lines 107-120. *)
Record Physics := mkPhysics {
  gravitationalConstant : decimal;
  centralGravity : decimal;
  springLength : decimal;
  springConstant : decimal;
  minVelocity : decimal;
  solver : string
}.

(** Modelled from the spec: the graph container [Network] of the pyvis
    package, which main.py imports and which is not under src/.  It holds
    the vertex list, the edge list and the layout configuration (spec 4.2,
    step 4). *)
Record Network := mkNetwork {
  height : string;
  width : string;
  directed : bool;
  notebook : bool;
  bgcolor : string;
  font_color : string;
  filter_menu : bool;
  cdn_resources : string;
  net_nodes : list Vertex;
  net_edges : list Edge;
  net_options : option Physics
}.

Definition with_nodes (net : Network) (vs : list Vertex) : Network :=
  mkNetwork (height net) (width net) (directed net) (notebook net) (bgcolor net)
    (font_color net) (filter_menu net) (cdn_resources net)
    vs (net_edges net) (net_options net).

Definition with_edges (net : Network) (es : list Edge) : Network :=
  mkNetwork (height net) (width net) (directed net) (notebook net) (bgcolor net)
    (font_color net) (filter_menu net) (cdn_resources net)
    (net_nodes net) es (net_options net).

Definition set_options (p : Physics) (net : Network) : Network :=
  mkNetwork (height net) (width net) (directed net) (notebook net) (bgcolor net)
    (font_color net) (filter_menu net) (cdn_resources net)
    (net_nodes net) (net_edges net) (Some p).

(** The ids of the vertices of a graph. *)
Definition node_ids (net : Network) : list string := map v_id (net_nodes net).

Definition has_node (net : Network) (k : string) : bool :=
  bool_decide (k ∈ node_ids net).

(** ** Exceptions, events, and the monad of a run *)

Inductive exn :=
| KeyError (k : string)
| AssertionError (msg : string)
| Exception (msg : string).

Inductive result (A : Type) :=
| Ok (a : A)
| Raise (e : exn).
Arguments Ok {A} a.
Arguments Raise {A} e.

(** What is shown to the user through the page. *)
Inductive ui_message :=
| PleaseEnterText
| TextExceedsLimit (limit : Z)
| FailedToGenerate
| ErrorGenerating (e : exn)
| GeneratedSuccessfully
| TextTruncated (original_length limit : Z)
| FileLoaded (characters : Z)
| CouldNotExtract
| CharacterCount (count limit : Z).

(** What a run does besides returning: lines printed, the call to the
    language model, and calls to the page. *)
Inductive event :=
| EvPrintNoDocuments
| EvPrintNodeError (k : string) (e : exn)
| EvPrintEdgeError (src tgt : string) (e : exn)
| EvPrintInitError (e : exn)
| EvPrintExtractError (e : exn)
| EvPrintGenerateError (e : exn)
| EvPrintProcessError (e : exn)
| EvPrintDetailedError (e : exn)
| EvExtractionCall (text : string)
| EvSpinner
| EvSidebarError (m : ui_message)
| EvSidebarWarning (m : ui_message)
| EvSidebarSuccess (m : ui_message)
| EvSidebarInfo (m : ui_message)
| EvSidebarPreview (text : string)
| EvError (m : ui_message)
| EvSuccess (m : ui_message)
| EvDisplayTables (doc : GraphDocument)
| EvSaveGraph (net : Network)
| EvMetrics (total_nodes total_relationships : nat) (text_length : Z)
| EvInfoCustom (custom_nodes custom_relationships : list string)
| EvShowGraph (net : Network).

(** A computation returns or raises, and leaves a list of events. *)
Definition M (A : Type) : Type := result A * list event.

Definition ret {A} (a : A) : M A := (Ok a, []).

Definition raise {A} (e : exn) : M A := (Raise e, []).

Definition emit (ev : event) : M unit := (Ok tt, [ev]).

Definition lift {A} (r : result A) : M A := (r, []).

Definition bind {A B} (m : M A) (k : A → M B) : M B :=
  match m.1 with
  | Ok a => ((k a).1, m.2 ++ (k a).2)
  | Raise e => (Raise e, m.2)
  end.

(** [try: m  except Exception as e: h e]. *)
Definition try_except {A} (m : M A) (h : exn → M A) : M A :=
  match m.1 with
  | Ok a => m
  | Raise e => ((h e).1, m.2 ++ (h e).2)
  end.

Notation "'let*' x ':=' m 'in' k" := (bind m (λ x, k))
  (at level 10, x pattern, m at level 100, k at level 200).

Notation "m ';;' k" := (bind m (λ _, k))
  (at level 100, k at level 200, right associativity).

(** [for x in l: s = body s x], stopping at the first exception that leaves
    the body. *)
Fixpoint for_each {A S} (l : list A) (s : S) (body : S → A → M S) : M S :=
  match l with
  | [] => ret s
  | x :: l' => let* s' := body s x in for_each l' s' body
  end.

(** ** Building (main.py, lines 70-122) *)

(** Line 71: [Network(height="1200px", width="100%", directed=True, ...)]. *)
Definition new_network : Network :=
  mkNetwork "1200px" "100%" true false "#222222" "white" true "remote" [] [] None.

(** Modelled from the spec: [Network.add_node], not under src/.  Spec 4.2,
    step 1: one vertex per id, carrying the label, the tooltip and the
    group; adding an id that the graph already has is a no-op. *)
Definition add_node (n_id label title group : string) (net : Network)
  : result Network :=
  if has_node net n_id then Ok net
  else Ok (with_nodes net
             (net_nodes net ++ [mkVertex n_id label "dot" (font_color net) title group])).

(** Modelled from the spec: [Network.add_edge], not under src/.  Spec 4.2,
    step 2: the insertion fails when either endpoint is missing from the
    vertex set; otherwise one edge is appended.  Parallel edges are kept
    (spec 4.1, multigraph). *)
Definition add_edge (src to label : string) (net : Network) : result Network :=
  if negb (has_node net src) then Raise (AssertionError src)
  else if negb (has_node net to) then Raise (AssertionError to)
  else Ok (with_edges net
             (net_edges net ++ [mkEdge src to (if directed net then "to" else "") label])).

(** The body of the loop of lines 90-96.  The lookup of line 91 is outside
    the [try]; the call of line 93 is inside. *)
Definition add_node_body (d : gmap string Node) (net : Network) (k : string)
  : M Network :=
  match d !! k with
  | None => raise (KeyError k)
  | Some node =>
      try_except
        (lift (add_node (node_id node) (node_id node) (node_type node) (node_type node) net))
        (λ e, emit (EvPrintNodeError k e);; ret net)
  end.

(** The body of the loop of lines 99-104. *)
Definition add_edge_body (net : Network) (rel : Relationship) : M Network :=
  try_except
    (lift (add_edge (node_id (source rel)) (node_id (target rel))
             (lower (rel_type rel)) net))
    (λ e, emit (EvPrintEdgeError (node_id (source rel)) (node_id (target rel)) e);;
          ret net).

(** Lines 98-104. *)
Definition add_edges (rels : list Relationship) (net : Network) : M Network :=
  for_each rels net add_edge_body.

(** Lines 89-96, over the ids in the order the set yields them. *)
Definition add_nodes (d : gmap string Node) (ks : list string) (net : Network)
  : M Network :=
  for_each ks net (add_node_body d).

(** Lines 107-120. *)
Definition physics : Physics :=
  mkPhysics (mkDecimal (-100) 0) (mkDecimal 1 2) (mkDecimal 200 0)
            (mkDecimal 8 2) (mkDecimal 75 2) "forceAtlas2Based".

(** Lines 70-122 on one graph document: validate, add the vertices, add the
    edges, set the options.  [iter_set] is the order in which Python yields
    the elements of [valid_node_ids]. *)
Definition build (iter_set : gset string → list string) (doc : GraphDocument)
  : M Network :=
  let d := node_dict (nodes doc) in
  let v := validate (nodes doc) (relationships doc) in
  let* net := add_nodes d (iter_set v.2) new_network in
  let* net := add_edges v.1 net in
  ret (set_options physics net).

(** [visualize_graph(graph_documents)]; [None] for the argument is Python's
    [None]. *)
Definition visualize_graph (iter_set : gset string → list string)
    (graph_documents : option (list GraphDocument)) : M (option Network) :=
  match graph_documents with
  | None | Some [] => emit EvPrintNoDocuments;; ret None
  | Some (doc :: _) => let* net := build iter_set doc in ret (Some net)
  end.

(** ** The pipeline (main.py, lines 19-54 and 124-143) *)

(** The language-model collaborator: whether [get_llm] and the constructor
    of the transformer return, and what the transformer answers for a
    text under the given allowed node and relationship types. *)
Record Extractor := mkExtractor {
  get_llm : result unit;
  LLMGraphTransformer : list string → list string → result unit;
  aconvert_to_graph_documents :
    list string → list string → string → result (list GraphDocument)
}.

(** Truth value of a list of strings. *)
Definition nonempty (l : list string) : bool :=
  match l with [] => false | _ => true end.

(** The transformer handle: the allowed types it was built with. *)
Definition Transformer : Type := list string * list string.

(** [LLMGraphTransformer(llm=llm, allowed_nodes=..., allowed_relationships=...)];
    an omitted keyword argument is the empty list. *)
Definition new_transformer (x : Extractor)
    (allowed_nodes allowed_relationships : list string) : result Transformer :=
  match LLMGraphTransformer x allowed_nodes allowed_relationships with
  | Ok _ => Ok (allowed_nodes, allowed_relationships)
  | Raise e => Raise e
  end.

(** [initialize_graph_transformer]. *)
Definition initialize_graph_transformer (x : Extractor)
    (nodes relationships : list string) : M (option Transformer) :=
  try_except
    (let* graph_transformer :=
       lift (if nonempty nodes && nonempty relationships
             then new_transformer x nodes relationships
             else if nonempty nodes then new_transformer x nodes []
             else if nonempty relationships then new_transformer x [] relationships
             else new_transformer x [] []) in
     ret (Some graph_transformer))
    (λ e, emit (EvPrintInitError e);; ret None).

(** [extract_graph_data]. *)
Definition extract_graph_data (x : Extractor) (text : string) (gt : Transformer)
  : M (option (list GraphDocument)) :=
  try_except
    (emit (EvExtractionCall text);;
     let* graph_documents := lift (aconvert_to_graph_documents x gt.1 gt.2 text) in
     ret (Some graph_documents))
    (λ e, emit (EvPrintExtractError e);; ret None).

Definition truthy_docs (graph_documents : option (list GraphDocument)) : bool :=
  match graph_documents with
  | Some (_ :: _) => true
  | _ => false
  end.

(** [generate_knowledge_graph_async]. *)
Definition generate_knowledge_graph_async (iter_set : gset string → list string)
    (x : Extractor) (text : string) (gt : Transformer)
  : M (option Network * option (list GraphDocument)) :=
  try_except
    (let* graph_documents := extract_graph_data x text gt in
     if truthy_docs graph_documents
     then let* net := visualize_graph iter_set graph_documents in
          ret (net, graph_documents)
     else ret (None, None))
    (λ e, emit (EvPrintGenerateError e);; ret (None, None)).

(** ** The page (app.py) *)

(** [truncate_text(text, limit)]. *)
Definition truncate_text (text : string) (limit : Z) : string :=
  if (len text >? limit)%Z then slice_to text limit else text.

(** [process_text_async]; it returns [(graph_documents, net)]. *)
Definition process_text_async (iter_set : gset string → list string)
    (x : Extractor) (text : string) (custom_nodes custom_relationships : list string)
  : M (option (list GraphDocument) * option Network) :=
  try_except
    (lift (get_llm x);;
     let* graph_transformer :=
       initialize_graph_transformer x custom_nodes custom_relationships in
     match graph_transformer with
     | None => ret (None, None)
     | Some gt =>
         let* r := generate_knowledge_graph_async iter_set x text gt in
         ret (r.2, r.1)
     end)
    (λ e, emit (EvPrintProcessError e);; ret (None, None)).

(** [handle_graph_generation(text)], with the globals [CHAR_LIMIT],
    [custom_nodes] and [custom_relationships] as arguments. *)
Definition handle_graph_generation (iter_set : gset string → list string)
    (CHAR_LIMIT : Z) (x : Extractor)
    (custom_nodes custom_relationships : list string) (text : string) : M unit :=
  if (len (strip text) >? 0)%Z && (len text <=? CHAR_LIMIT)%Z then
    emit EvSpinner;;
    try_except
      (let* r := process_text_async iter_set x text custom_nodes custom_relationships in
       match r with
       | (Some (doc :: _), Some net) =>
           emit (EvDisplayTables doc);;
           emit (EvSuccess GeneratedSuccessfully);;
           emit (EvSaveGraph net);;
           emit (EvMetrics (length (nodes doc)) (length (relationships doc)) (len text));;
           (if nonempty custom_nodes || nonempty custom_relationships
            then emit (EvInfoCustom custom_nodes custom_relationships)
            else ret tt);;
           emit (EvShowGraph net)
       | _ => emit (EvError FailedToGenerate)
       end)
      (λ e, emit (EvError (ErrorGenerating e));; emit (EvPrintDetailedError e))
  else if (len (strip text) =? 0)%Z then emit (EvSidebarError PleaseEnterText)
  else if (len text >? CHAR_LIMIT)%Z then emit (EvSidebarError (TextExceedsLimit CHAR_LIMIT))
  else ret tt.

(** The upload path of the page script (lines 234-261), for an uploaded
    file: [extracted] is what [extract_text] returned, [button] whether the
    button is pressed.  It yields the events and the text the page holds. *)
Definition load_uploaded_text (CHAR_LIMIT : Z) (extracted : option string)
  : M (option string) :=
  match extracted with
  | Some text =>
      if truthy_str text then
        let original_length := len text in
        let text := truncate_text text CHAR_LIMIT in
        (if (original_length >? CHAR_LIMIT)%Z
         then emit (EvSidebarWarning (TextTruncated original_length CHAR_LIMIT))
         else ret tt);;
        emit (EvSidebarSuccess (FileLoaded (len text)));;
        emit (EvSidebarPreview text);;
        ret (Some text)
      else emit (EvSidebarError CouldNotExtract);; ret None
  | None => emit (EvSidebarError CouldNotExtract);; ret None
  end.

Definition upload_file_page (iter_set : gset string → list string)
    (CHAR_LIMIT : Z) (x : Extractor)
    (custom_nodes custom_relationships : list string)
    (extracted : option string) (button : bool) : M unit :=
  let* text := load_uploaded_text CHAR_LIMIT extracted in
  match text with
  | Some text =>
      if truthy_str text && button
      then handle_graph_generation iter_set CHAR_LIMIT x
             custom_nodes custom_relationships text
      else ret tt
  | None => ret tt
  end.

(** The text-area path of the page script (lines 266-278). *)
Definition input_text_page (iter_set : gset string → list string)
    (CHAR_LIMIT : Z) (x : Extractor)
    (custom_nodes custom_relationships : list string)
    (text : string) (button : bool) : M unit :=
  (if truthy_str text then
     emit (EvSidebarInfo (CharacterCount (len text) CHAR_LIMIT));;
     (if (len text >? CHAR_LIMIT)%Z
      then emit (EvSidebarError (TextExceedsLimit CHAR_LIMIT))
      else ret tt)
   else ret tt);;
  if truthy_str text && button
  then handle_graph_generation iter_set CHAR_LIMIT x
         custom_nodes custom_relationships text
  else ret tt.

(** The events that are calls to the language model. *)
Definition is_extraction_call (ev : event) : bool :=
  match ev with
  | EvExtractionCall _ => true
  | _ => false
  end.

Definition extraction_calls (m : list event) : list event :=
  filter (λ ev, is_extraction_call ev = true) m.

(** ** What the loops compute, in closed form *)

(** The vertex [add_node] stores for a node (line 93). *)
Definition vertex_of (fc : string) (node : Node) : Vertex :=
  mkVertex (node_id node) (node_id node) "dot" fc (node_type node) (node_type node).

(** The vertices for a list of ids, looked up in the dict. *)
Definition rendered_vertices (d : gmap string Node) (fc : string) (ks : list string)
  : list Vertex :=
  omap (λ k, vertex_of fc <$> d !! k) ks.

(** The edge [add_edge] stores for a relationship (line 101). *)
Definition edge_of (net : Network) (rel : Relationship) : Edge :=
  mkEdge (node_id (source rel)) (node_id (target rel))
         (if directed net then "to" else "") (lower (rel_type rel)).

(** Whether [add_edge] accepts a relationship on this graph. *)
Definition insertable (net : Network) (rel : Relationship) : bool :=
  has_node net (node_id (source rel)) && has_node net (node_id (target rel)).

(** What the handler of lines 102-104 prints for a relationship. *)
Definition edge_failure (net : Network) (rel : Relationship) : list event :=
  match add_edge (node_id (source rel)) (node_id (target rel)) (lower (rel_type rel)) net with
  | Ok _ => []
  | Raise e => [EvPrintEdgeError (node_id (source rel)) (node_id (target rel)) e]
  end.

(** The graph [build] returns for a document. *)
Definition rendered (iter_set : gset string → list string) (doc : GraphDocument)
  : Network :=
  mkNetwork "1200px" "100%" true false "#222222" "white" true "remote"
    (rendered_vertices (node_dict (nodes doc)) "white"
       (iter_set (valid_node_ids (nodes doc) (relationships doc))))
    (map (edge_of new_network) (valid_edges (nodes doc) (relationships doc)))
    (Some physics).

(** ** The worked scenario of the specification *)

Definition scenario_A : Node := mkNode "A" "Person" [].
Definition scenario_B : Node := mkNode "B" "Person" [].
Definition scenario_C : Node := mkNode "C" "Org" [].
Definition scenario_X : Node := mkNode "X" "Person" [].

Definition scenario_works_for : Relationship :=
  mkRelationship scenario_A scenario_C "WORKS_FOR" [].

Definition scenario_knows : Relationship :=
  mkRelationship scenario_A scenario_X "KNOWS" [].

Definition scenario_doc : GraphDocument :=
  mkGraphDocument [scenario_A; scenario_B; scenario_C]
                  [scenario_works_for; scenario_knows].

(** A graph holding the vertices of A and C and no edge. *)
Definition graph_A_C : Network :=
  with_nodes new_network [vertex_of "white" scenario_A; vertex_of "white" scenario_C].

(** The document with no node and no relationship. *)
Definition empty_doc : GraphDocument := mkGraphDocument [] [].

(** An extractor whose calls all return, answering [docs]. *)
Definition constant_extractor (docs : list GraphDocument) : Extractor :=
  mkExtractor (Ok tt) (λ _ _, Ok tt) (λ _ _ _, Ok docs).

(** ** Auxiliary notions for further properties *)

(** Every character of the string is white space; true of the empty
    string. *)
Fixpoint all_space (s : string) : bool :=
  match s with
  | EmptyString => true
  | String c s' => is_space c && all_space s'
  end.

(** What [process_text_async] returns and leaves as events, read off the
    answers of the collaborator. *)
Definition process_outcome (iter_set : gset string → list string)
    (x : Extractor) (text : string) (custom_nodes custom_relationships : list string)
  : M (option (list GraphDocument) * option Network) :=
  match get_llm x with
  | Raise e => (Ok (None, None), [EvPrintProcessError e])
  | Ok _ =>
      match LLMGraphTransformer x custom_nodes custom_relationships with
      | Raise e => (Ok (None, None), [EvPrintInitError e])
      | Ok _ =>
          match aconvert_to_graph_documents x custom_nodes custom_relationships text with
          | Raise e => (Ok (None, None), [EvExtractionCall text; EvPrintExtractError e])
          | Ok [] => (Ok (None, None), [EvExtractionCall text])
          | Ok (doc :: rest) =>
              (Ok (Some (doc :: rest), Some (rendered iter_set doc)),
               [EvExtractionCall text])
          end
      end
  end.

(** ** The page: custom types and uploaded files (app.py, lines 44-65 and 153-173) *)

(** [s.split(sep)] for a separator of one character. *)
Fixpoint split_on (sep : ascii) (s : string) : list string :=
  match s with
  | EmptyString => [EmptyString]
  | String c s' =>
      if bool_decide (c = sep) then EmptyString :: split_on sep s'
      else match split_on sep s' with
           | p :: ps => String c p :: ps
           | [] => [String c EmptyString]
           end
  end.

(** Lines 44-55 for [custom_nodes], lines 45 and 57-65 for
    [custom_relationships]: the list is empty unless the box is ticked and
    the input is not blank; then it is
    [[p.strip() for p in input.split(",") if p.strip()]]. *)
Definition custom_list (enabled : bool) (input : string) : list string :=
  if enabled then
    if truthy_str (strip input)
    then map strip (filter (λ p, truthy_str (strip p) = true) (split_on "," input))
    else []
  else [].

(** [sep.join(l)]. *)
Fixpoint join (sep : string) (l : list string) : string :=
  match l with
  | [] => EmptyString
  | x :: l' =>
      match l' with
      | [] => x
      | _ => String.append x (String.append sep (join sep l'))
      end
  end.

(** An uploaded file: its MIME type and what [read()] gives. *)
Record UploadedFile := mkUploadedFile {
  file_type : string;
  file_read : result string
}.

(** [bytes.decode("utf-8")], which may raise, and
    [bytes.decode("utf-8", errors='ignore')], which does not. *)
Record Codec := mkCodec {
  decode_utf8 : string → result string;
  decode_utf8_ignore : string → string
}.

(** What [extract_text] shows in the sidebar. *)
Inductive extract_note :=
| WarnPdfBasicExtraction
| WarnDocxNeedsLibraries
| WarnPptNeedsLibraries
| ErrExtractingText (e : exn).

Definition mime_docx : string :=
  "application/vnd.openxmlformats-officedocument.wordprocessingml.document".
Definition mime_ppt : string := "application/vnd.ms-powerpoint".
Definition mime_pptx : string :=
  "application/vnd.openxmlformats-officedocument.presentationml.presentation".

(** [extract_text(uploaded_file)]: the text or [None], and the notes shown. *)
Definition extract_text (codec : Codec) (uploaded_file : UploadedFile)
  : option string * list extract_note :=
  if bool_decide (file_type uploaded_file = "text/plain") then
    match file_read uploaded_file with
    | Ok bytes =>
        match decode_utf8 codec bytes with
        | Ok text => (Some text, [])
        | Raise e => (None, [ErrExtractingText e])
        end
    | Raise e => (None, [ErrExtractingText e])
    end
  else if bool_decide (file_type uploaded_file = "application/pdf") then
    match file_read uploaded_file with
    | Ok bytes => (Some (decode_utf8_ignore codec bytes), [WarnPdfBasicExtraction])
    | Raise e => (None, [WarnPdfBasicExtraction; ErrExtractingText e])
    end
  else if bool_decide (file_type uploaded_file = mime_docx) then
    (None, [WarnDocxNeedsLibraries])
  else if bool_decide (file_type uploaded_file = mime_ppt)
          || bool_decide (file_type uploaded_file = mime_pptx) then
    (None, [WarnPptNeedsLibraries])
  else
    match file_read uploaded_file with
    | Ok bytes => (Some (decode_utf8_ignore codec bytes), [])
    | Raise e => (None, [ErrExtractingText e])
    end.

(** A string without the given character. *)
Fixpoint free_of (sep : ascii) (s : string) : bool :=
  match s with
  | EmptyString => true
  | String c s' => negb (bool_decide (c = sep)) && free_of sep s'
  end.

(** A type name as [custom_list] hands it on: not empty, without comma and
    without white space at either end. *)
Definition clean_name (s : string) : bool :=
  truthy_str s && free_of "," s && bool_decide (strip s = s).

(** ** The file parser (utils.py) *)

Module FileParser.

(** What the parser raises: the two [ValueError]s of utils.py, an
    [IndexError] of a list, or an exception of a library that reads files. *)
Inductive error :=
| InvalidPageRange (start_page end_page : Z)
| UnsupportedFileType (ext : string)
| IndexError (i : Z)
| LibraryError (e : exn).

(** What the parser prints. *)
Inductive output :=
| PrintPages (pages_text : list string)
| WarnInvalidRange (unit_name : string) (file_path : string) (start stop : Z).

(** A parse returns or raises, and leaves what it printed. *)
Definition parsed : Type := (error + string) * list output.

(** The line feed. *)
Definition LF : string := String (ascii_of_nat 10) EmptyString.

(** A bound of a Python slice, brought into [0, n]. *)
Definition clamp (n i : Z) : Z :=
  if (i <? 0)%Z then Z.max 0 (n + i) else Z.min n i.

(** [l[a:b]] on a Python list. *)
Definition slice {A} (l : list A) (a b : Z) : list A :=
  let n := Z.of_nat (length l) in
  take (Z.to_nat (clamp n b - clamp n a)) (drop (Z.to_nat (clamp n a)) l).

(** [l[i]] on a Python list: a negative index counts from the end. *)
Definition index {A} (l : list A) (i : Z) : error + A :=
  let n := Z.of_nat (length l) in
  let j := if (i <? 0)%Z then (n + i)%Z else i in
  if (j <? 0)%Z then inl (IndexError i)
  else match l !! Z.to_nat j with
       | Some x => inr x
       | None => inl (IndexError i)
       end.

(** [range(a, b)]. *)
Definition range (a b : Z) : list Z := seqZ a (b - a).

(** [for x in l: acc = acc + f x], stopping at the first error. *)
Fixpoint collect {A B} (f : A → error + B) (l : list A) : error + list B :=
  match l with
  | [] => inr []
  | x :: l' =>
      match f x with
      | inl e => inl e
      | inr y =>
          match collect f l' with
          | inl e => inl e
          | inr ys => inr (y :: ys)
          end
      end
  end.

(** An opened PDF: the text of its pages, and what [doc[i]] does for an
    index that is not in [0, len(doc))]. *)
Record PdfDocument := mkPdfDocument {
  pdf_pages : list string;
  pdf_outside : Z → error + string
}.

(** [doc[page_num].get_text()]. *)
Definition get_text (doc : PdfDocument) (page_num : Z) : error + string :=
  if (page_num <? 0)%Z then pdf_outside doc page_num
  else match pdf_pages doc !! Z.to_nat page_num with
       | Some t => inr t
       | None => pdf_outside doc page_num
       end.

(** What the libraries read from a path: the pages of a PDF, the texts of
    the paragraphs of a Word document, for each slide of a presentation
    the text of each shape ([None] for a shape without text), the rows of
    a CSV file, the lines of a text file. *)
Record Files := mkFiles {
  fitz_open : string → error + PdfDocument;
  Document : string → error + list string;
  Presentation : string → error + list (list (option string));
  csv_reader : string → error + list (list string);
  readlines : string → error + list string
}.

(** [parse_pdf]. *)
Definition parse_pdf (fs : Files) (file_path : string)
    (skip_start_pages skip_end_pages : Z) : parsed :=
  match fitz_open fs file_path with
  | inl e => (inl e, [])
  | inr doc =>
      let total_pages := Z.of_nat (length (pdf_pages doc)) in
      let start_page := skip_start_pages in
      let end_page := (total_pages - skip_end_pages)%Z in
      if (start_page >=? end_page)%Z
      then (inl (InvalidPageRange start_page end_page), [])
      else match collect (get_text doc) (range start_page end_page) with
           | inl e => (inl e, [])
           | inr pages_text => (inr (join LF pages_text), [PrintPages (take 20 pages_text)])
           end
  end.

(** [parse_docx]. *)
Definition parse_docx (fs : Files) (file_path : string)
    (skip_start_pages skip_end_pages : Z) : parsed :=
  match Document fs file_path with
  | inl e => (inl e, [])
  | inr texts =>
      let paragraphs := filter (λ t, truthy_str (strip t) = true) texts in
      let total_paragraphs := Z.of_nat (length paragraphs) in
      let start_para := skip_start_pages in
      let end_para := (total_paragraphs - skip_end_pages)%Z in
      if (start_para >=? end_para)%Z
      then (inr EmptyString, [WarnInvalidRange "paragraph" file_path start_para end_para])
      else (inr (join LF (slice paragraphs start_para end_para)), [])
  end.

(** The inner loop of [parse_pptx]: [text += shape.text + "\n"] for each
    shape of the slide that has a text. *)
Definition add_shapes (text : string) (shapes : list (option string)) : string :=
  foldl (λ text shape,
           match shape with
           | Some t => String.append text (String.append t LF)
           | None => text
           end) text shapes.

(** [parse_pptx]. *)
Definition parse_pptx (fs : Files) (file_path : string)
    (skip_start_pages skip_end_pages : Z) : parsed :=
  match Presentation fs file_path with
  | inl e => (inl e, [])
  | inr slides =>
      let total_slides := Z.of_nat (length slides) in
      let start_slide := skip_start_pages in
      let end_slide := (total_slides - skip_end_pages)%Z in
      if (start_slide >=? end_slide)%Z
      then (inr EmptyString, [WarnInvalidRange "slide" file_path start_slide end_slide])
      else match collect (index slides) (range start_slide end_slide) with
           | inl e => (inl e, [])
           | inr selected =>
               (inr (foldl add_shapes EmptyString selected), [])
           end
  end.

(** [parse_csv]. *)
Definition parse_csv (fs : Files) (file_path : string)
    (skip_start_pages skip_end_pages : Z) : parsed :=
  match csv_reader fs file_path with
  | inl e => (inl e, [])
  | inr all_rows =>
      let total_rows := Z.of_nat (length all_rows) in
      let start_row := skip_start_pages in
      let end_row := (total_rows - skip_end_pages)%Z in
      if (start_row >=? end_row)%Z
      then (inr EmptyString, [WarnInvalidRange "row" file_path start_row end_row])
      else (inr (join LF (map (join " ") (slice all_rows start_row end_row))), [])
  end.

(** [parse_txt]. *)
Definition parse_txt (fs : Files) (file_path : string)
    (skip_start_pages skip_end_pages : Z) : parsed :=
  match readlines fs file_path with
  | inl e => (inl e, [])
  | inr lines =>
      let total_lines := Z.of_nat (length lines) in
      let start_line := skip_start_pages in
      let end_line := (total_lines - skip_end_pages)%Z in
      if (start_line >=? end_line)%Z
      then (inr EmptyString, [WarnInvalidRange "line" file_path start_line end_line])
      else (inr (join EmptyString (slice lines start_line end_line)), [])
  end.

(** [file_path.lower().split('.')[-1]]. *)
Definition extension (file_path : string) : string :=
  default EmptyString (last (split_on "." (lower file_path))).

(** [parse]. *)
Definition parse (fs : Files) (file_path : string)
    (skip_start_pages skip_end_pages : Z) : parsed :=
  let ext := extension file_path in
  if bool_decide (ext = "pdf") then parse_pdf fs file_path skip_start_pages skip_end_pages
  else if bool_decide (ext = "docx") then parse_docx fs file_path skip_start_pages skip_end_pages
  else if bool_decide (ext = "pptx") then parse_pptx fs file_path skip_start_pages skip_end_pages
  else if bool_decide (ext = "csv") then parse_csv fs file_path skip_start_pages skip_end_pages
  else if bool_decide (ext ∈ ["txt"; "md"]) then
    parse_txt fs file_path skip_start_pages skip_end_pages
  else (inl (UnsupportedFileType ext), []).

End FileParser.

(** A sample of files: a PDF of three pages, a Word document with a blank
    paragraph, a presentation of three slides, a CSV file of three rows and
    a text file of three lines. *)
Definition sample_files : FileParser.Files :=
  FileParser.mkFiles
    (λ _, inr (FileParser.mkPdfDocument ["page 1"; "page 2"; "page 3"]
                 (λ i, inl (FileParser.IndexError i))))
    (λ _, inr ["Title"; "  "; "Body"; "End"])
    (λ _, inr [[Some "first"]; [None; Some "second"]; [Some "third"]])
    (λ _, inr [["a"; "b"]; ["c"]; ["d"; "e"]])
    (λ _, inr ["one;"; "two;"; "three;"]).

(** *** Facts about the lookup and the loop *)

Lemma node_dict_foldl_dom (ns : list Node) (d : gmap string Node) :
  dom (foldl (λ d node, <[node_id node := node]> d) d ns)
  = dom d ∪ list_to_set (map node_id ns).
Proof.
  revert d. induction ns as [|n ns IH]; intros d; simpl.
  - set_solver.
  - rewrite IH, dom_insert_L. set_solver.
Qed.

Lemma node_dict_dom (ns : list Node) : dom (node_dict ns) = ids_of ns.
Proof. unfold node_dict, ids_of. rewrite node_dict_foldl_dom. set_solver. Qed.

Lemma contains_dom (d : gmap string Node) (k : string) :
  contains d k = true ↔ k ∈ dom d.
Proof.
  unfold contains. rewrite elem_of_dom.
  destruct (d !! k) eqn:E; split; intros H; try done.
Qed.

Lemma contains_node_dict (ns : list Node) (k : string) :
  contains (node_dict ns) k = true ↔ k ∈ ids_of ns.
Proof. by rewrite contains_dom, node_dict_dom. Qed.

Lemma validate_from_spec (d : gmap string Node) (rels : list Relationship)
    (acc : list Relationship * gset string) :
  validate_from d acc rels
  = (acc.1 ++ filter (λ rel, endpoints_known d rel = true) rels,
     acc.2 ∪ endpoint_ids (filter (λ rel, endpoints_known d rel = true) rels)).
Proof.
  revert acc. induction rels as [|rel rels IH]; intros [es ids]; simpl.
  - unfold endpoint_ids; simpl. f_equal; [by rewrite app_nil_r | set_solver].
  - unfold validate_from in *. simpl. rewrite IH. unfold validate_step.
    destruct (endpoints_known d rel) eqn:E; simpl.
    + rewrite filter_cons_True by done. rewrite <- app_assoc. simpl. f_equal.
      unfold endpoint_ids; simpl. set_solver.
    + rewrite filter_cons_False by (rewrite E; discriminate). done.
Qed.

Lemma valid_edges_filter (ns : list Node) (rels : list Relationship) :
  valid_edges ns rels
  = filter (λ rel, endpoints_known (node_dict ns) rel = true) rels.
Proof. unfold valid_edges, validate. by rewrite validate_from_spec. Qed.

Lemma valid_node_ids_endpoints (ns : list Node) (rels : list Relationship) :
  valid_node_ids ns rels = endpoint_ids (valid_edges ns rels).
Proof.
  unfold valid_node_ids, valid_edges, validate. rewrite validate_from_spec.
  simpl. set_solver.
Qed.

Lemma elem_of_endpoint_ids (rels : list Relationship) (k : string) :
  k ∈ endpoint_ids rels
  ↔ ∃ rel, rel ∈ rels ∧ (k = node_id (source rel) ∨ k = node_id (target rel)).
Proof.
  unfold endpoint_ids. rewrite elem_of_list_to_set, list_elem_of_In, in_flat_map.
  split.
  - intros (rel & Hin & Hk). exists rel. rewrite list_elem_of_In. split; [done|].
    simpl in Hk. naive_solver.
  - intros (rel & Hin & Hk). exists rel. rewrite <- list_elem_of_In. split; [done|].
    simpl. naive_solver.
Qed.

Lemma elem_of_valid_edges (ns : list Node) (rels : list Relationship) (rel : Relationship) :
  rel ∈ valid_edges ns rels
  ↔ rel ∈ rels ∧ node_id (source rel) ∈ ids_of ns ∧ node_id (target rel) ∈ ids_of ns.
Proof.
  rewrite valid_edges_filter, list_elem_of_filter. unfold endpoints_known.
  rewrite andb_true_iff, !contains_node_dict. naive_solver.
Qed.

Lemma validate_postcondition_aux (ns : list Node) (rels : list Relationship) (k : string) :
  k ∈ valid_node_ids ns rels → k ∈ ids_of ns.
Proof.
  rewrite valid_node_ids_endpoints, elem_of_endpoint_ids.
  intros (rel & Hin & Hk). apply elem_of_valid_edges in Hin. naive_solver.
Qed.


(** *** Facts about the builder *)

Lemma node_dict_foldl_lookup (ns : list Node) (d : gmap string Node) (k : string) (n : Node) :
  (∀ k' n', d !! k' = Some n' → node_id n' = k') →
  foldl (λ d node, <[node_id node := node]> d) d ns !! k = Some n →
  node_id n = k.
Proof.
  revert d. induction ns as [|m ns IH]; intros d Hd; simpl.
  - apply Hd.
  - apply IH. intros k' n'. rewrite lookup_insert. case_decide; naive_solver.
Qed.

Lemma node_dict_lookup_id (ns : list Node) (k : string) (n : Node) :
  node_dict ns !! k = Some n → node_id n = k.
Proof. apply node_dict_foldl_lookup. intros k' n'. by rewrite lookup_empty. Qed.

Lemma node_dict_lookup_known (ns : list Node) (k : string) :
  k ∈ ids_of ns → ∃ n, node_dict ns !! k = Some n ∧ node_id n = k.
Proof.
  rewrite <- node_dict_dom, elem_of_dom. intros [n Hn].
  exists n. split; [done | by eapply node_dict_lookup_id].
Qed.

Lemma add_node_body_fresh (d : gmap string Node) (net : Network) (k : string) (n : Node) :
  d !! k = Some n → node_id n = k → k ∉ node_ids net →
  add_node_body d net k
  = (Ok (with_nodes net (net_nodes net ++ [vertex_of (font_color net) n])), []).
Proof.
  intros Hk Hid Hfresh. unfold add_node_body. rewrite Hk, Hid.
  unfold try_except, lift, add_node, has_node.
  rewrite bool_decide_eq_false_2 by done. simpl. unfold vertex_of. by rewrite Hid.
Qed.

Lemma add_nodes_fresh (d : gmap string Node) (ks : list string) :
  ∀ net : Network,
    NoDup ks →
    (∀ k, k ∈ ks → k ∉ node_ids net) →
    (∀ k, k ∈ ks → ∃ n, d !! k = Some n ∧ node_id n = k) →
    add_nodes d ks net
    = (Ok (with_nodes net
             (net_nodes net ++ rendered_vertices d (font_color net) ks)), []).
Proof.
  induction ks as [|k ks IH]; intros net Hnd Hfresh Hknown.
  - unfold add_nodes, rendered_vertices; simpl. rewrite app_nil_r.
    by destruct net.
  - apply NoDup_cons in Hnd as [Hk Hnd].
    destruct (Hknown k) as (n & Hn & Hid); [by left|].
    unfold add_nodes in *. simpl.
    rewrite (add_node_body_fresh d net k n) by (try done; apply Hfresh; by left).
    unfold bind at 1. simpl. rewrite IH; try done.
    + unfold rendered_vertices. simpl. rewrite Hn. simpl.
      unfold with_nodes. simpl. by rewrite <- app_assoc.
    + intros k' Hk'. unfold node_ids, with_nodes. simpl.
      rewrite map_app, elem_of_app. simpl. intros [Hin | Hin].
      * apply (Hfresh k'); [by right | done].
      * apply list_elem_of_singleton in Hin. unfold vertex_of in Hin. simpl in Hin.
        congruence.
    + intros k' Hk'. apply Hknown. by right.
Qed.

Lemma rendered_vertices_ids (d : gmap string Node) (fc : string) (ks : list string) :
  (∀ k, k ∈ ks → ∃ n, d !! k = Some n ∧ node_id n = k) →
  map v_id (rendered_vertices d fc ks) = ks.
Proof.
  induction ks as [|k ks IH]; intros Hknown; [done|].
  destruct (Hknown k) as (n & Hn & Hid); [by left|].
  unfold rendered_vertices in *. simpl. rewrite Hn. simpl. rewrite Hid. f_equal.
  apply IH. intros k' Hk'. apply Hknown. by right.
Qed.

Lemma add_edge_ok_iff (net : Network) (rel : Relationship) :
  insertable net rel = true
  ↔ add_edge (node_id (source rel)) (node_id (target rel)) (lower (rel_type rel)) net
    = Ok (with_edges net (net_edges net ++ [edge_of net rel])).
Proof.
  unfold insertable, add_edge, edge_of.
  destruct (has_node net (node_id (source rel)));
    destruct (has_node net (node_id (target rel))); simpl; split; done.
Qed.

Lemma add_edge_body_spec (net : Network) (rel : Relationship) :
  add_edge_body net rel
  = (Ok (if insertable net rel
         then with_edges net (net_edges net ++ [edge_of net rel])
         else net),
     edge_failure net rel).
Proof.
  unfold add_edge_body, edge_failure, insertable, add_edge, edge_of, try_except, lift.
  destruct (has_node net (node_id (source rel)));
    destruct (has_node net (node_id (target rel))); simpl; done.
Qed.

Lemma add_edges_from (rels : list Relationship) (net : Network) :
  ∀ es : list Edge,
    add_edges rels (with_edges net es)
    = (Ok (with_edges net
             (es ++ map (edge_of net) (filter (λ rel, insertable net rel = true) rels))),
       flat_map (edge_failure net) rels).
Proof.
  induction rels as [|rel rels IH]; intros es.
  - unfold add_edges. simpl. by rewrite app_nil_r.
  - unfold add_edges in *. simpl. rewrite add_edge_body_spec.
    unfold bind at 1. simpl.
    assert (Hins : insertable (with_edges net es) rel = insertable net rel) by done.
    assert (Hfail : edge_failure (with_edges net es) rel = edge_failure net rel).
    { unfold edge_failure, add_edge. simpl.
      change (has_node (with_edges net es)) with (has_node net).
      destruct (has_node net (node_id (source rel)));
        destruct (has_node net (node_id (target rel))); done. }
    rewrite Hins, Hfail. destruct (insertable net rel) eqn:E.
    + rewrite filter_cons_True by done.
      change (with_edges (with_edges net es) ?x) with (with_edges net x).
      rewrite IH. simpl. f_equal. f_equal. rewrite <- app_assoc. done.
    + rewrite filter_cons_False by (rewrite E; discriminate).
      rewrite IH. done.
Qed.

Lemma add_edges_spec (rels : list Relationship) (net : Network) :
  add_edges rels net
  = (Ok (with_edges net
           (net_edges net
            ++ map (edge_of net) (filter (λ rel, insertable net rel = true) rels))),
     flat_map (edge_failure net) rels).
Proof.
  rewrite <- add_edges_from. f_equal. by destruct net.
Qed.

Lemma edge_failure_insertable (net : Network) (rel : Relationship) :
  insertable net rel = true → edge_failure net rel = [].
Proof.
  unfold insertable, edge_failure, add_edge.
  destruct (has_node net (node_id (source rel)));
    destruct (has_node net (node_id (target rel))); simpl; done.
Qed.

Lemma filter_all {A} (P : A → Prop) `{∀ x, Decision (P x)} (l : list A) :
  (∀ x, x ∈ l → P x) → filter P l = l.
Proof.
  induction l as [|x l IH]; intros HP; [done|].
  rewrite filter_cons_True by (apply HP; by left).
  f_equal. apply IH. intros y Hy. apply HP. by right.
Qed.

Lemma filter_none {A} (P : A → Prop) `{∀ x, Decision (P x)} (l : list A) :
  (∀ x, x ∈ l → ¬ P x) → filter P l = [].
Proof.
  induction l as [|x l IH]; intros HP; [done|].
  rewrite filter_cons_False by (apply HP; by left).
  apply IH. intros y Hy. apply HP. by right.
Qed.

Lemma flat_map_nil {A B} (f : A → list B) (l : list A) :
  (∀ x, x ∈ l → f x = []) → flat_map f l = [].
Proof.
  induction l as [|x l IH]; intros Hf; [done|].
  simpl. rewrite Hf by (by left). simpl. apply IH. intros y Hy. apply Hf. by right.
Qed.

Lemma initialize_graph_transformer_ok (x : Extractor) (ns rs : list string) :
  LLMGraphTransformer x ns rs = Ok tt →
  initialize_graph_transformer x ns rs = (Ok (Some (ns, rs)), []).
Proof.
  intros Hgt. unfold initialize_graph_transformer, new_transformer.
  destruct ns, rs; simpl; rewrite Hgt; done.
Qed.

(** ** Theorems *)

(** C1. Validator postcondition: every relationship kept in [valid_edges]
    has its source id and its target id among the ids of the node list;
    [valid_node_ids] is exactly the set of source and target ids of the kept
    relationships, and is therefore included in the ids of the node list. *)
Theorem validate_postcondition (N : list Node) (R : list Relationship) :
  (∀ rel, rel ∈ valid_edges N R →
     node_id (source rel) ∈ ids_of N ∧ node_id (target rel) ∈ ids_of N)
  ∧ (∀ k, k ∈ valid_node_ids N R ↔
       ∃ rel, rel ∈ valid_edges N R
              ∧ (k = node_id (source rel) ∨ k = node_id (target rel)))
  ∧ valid_node_ids N R = endpoint_ids (valid_edges N R)
  ∧ valid_node_ids N R ⊆ ids_of N.
Proof.
  assert (Hedge : ∀ rel, rel ∈ valid_edges N R →
     node_id (source rel) ∈ ids_of N ∧ node_id (target rel) ∈ ids_of N).
  { intros rel Hrel. apply elem_of_valid_edges in Hrel. tauto. }
  split; [exact Hedge|]. split; [|split].
  - intros k. rewrite valid_node_ids_endpoints. apply elem_of_endpoint_ids.
  - apply valid_node_ids_endpoints.
  - intros k. rewrite valid_node_ids_endpoints, elem_of_endpoint_ids.
    intros (rel & Hin & [-> | ->]); by destruct (Hedge rel Hin).
Qed.

Lemma count_occ_filter_keep (P : Relationship → Prop) `{∀ x, Decision (P x)}
    (l : list Relationship) (r : Relationship) :
  P r → count_occ Relationship_eq_dec (filter P l) r = count_occ Relationship_eq_dec l r.
Proof.
  intros Hr. induction l as [|x l IH]; [done|].
  destruct (decide (P x)) as [Hx | Hx].
  - rewrite filter_cons_True by done. simpl.
    destruct (Relationship_eq_dec x r); by rewrite IH.
  - rewrite filter_cons_False by done. simpl.
    destruct (Relationship_eq_dec x r) as [-> | ?]; [done | by rewrite IH].
Qed.

(** C5. Ordering and multigraph semantics of validation: [valid_edges] is
    the input list with the relationships of unknown endpoints removed, so
    the kept relationships keep their relative order, and a relationship
    with known endpoints that occurs several times in the input occurs as
    many times in [valid_edges]. *)
Theorem validation_keeps_order_and_duplicates (N : list Node) (R : list Relationship) :
  valid_edges N R = filter (λ rel, endpoints_known (node_dict N) rel = true) R
  ∧ sublist (valid_edges N R) R
  ∧ (∀ rel, node_id (source rel) ∈ ids_of N → node_id (target rel) ∈ ids_of N →
       count_occ Relationship_eq_dec (valid_edges N R) rel
       = count_occ Relationship_eq_dec R rel).
Proof.
  split; [apply valid_edges_filter|]. split.
  - rewrite valid_edges_filter. apply sublist_filter.
  - intros rel Hs Ht. rewrite valid_edges_filter.
    apply count_occ_filter_keep. unfold endpoints_known.
    apply andb_true_iff. by rewrite !contains_node_dict.
Qed.

(** *** The builder, for any order of iteration over the set of valid ids *)

Section Build.

Variable iter_set : gset string → list string.
Hypothesis iter_set_perm : ∀ S : gset string, iter_set S ≡ₚ elements S.

Lemma iter_set_elem (S : gset string) (k : string) : k ∈ iter_set S ↔ k ∈ S.
Proof. by rewrite iter_set_perm, elem_of_elements. Qed.

Lemma iter_set_NoDup (S : gset string) : NoDup (iter_set S).
Proof. rewrite iter_set_perm. apply NoDup_elements. Qed.

Lemma valid_ids_known (doc : GraphDocument) (k : string) :
  k ∈ iter_set (valid_node_ids (nodes doc) (relationships doc)) →
  ∃ n, node_dict (nodes doc) !! k = Some n ∧ node_id n = k.
Proof.
  rewrite iter_set_elem. intros Hk. apply node_dict_lookup_known.
  by apply (validate_postcondition_aux (nodes doc) (relationships doc)).
Qed.

Lemma rendered_node_ids (doc : GraphDocument) :
  node_ids (rendered iter_set doc)
  = iter_set (valid_node_ids (nodes doc) (relationships doc)).
Proof.
  unfold node_ids, rendered. simpl. apply rendered_vertices_ids.
  apply valid_ids_known.
Qed.

Lemma build_spec (doc : GraphDocument) :
  build iter_set doc = (Ok (rendered iter_set doc), []).
Proof.
  unfold build.
  rewrite add_nodes_fresh;
    [| apply iter_set_NoDup | intros k _; unfold node_ids; simpl; apply not_elem_of_nil
     | apply valid_ids_known].
  unfold bind at 1. simpl.
  set (net1 := with_nodes new_network _).
  rewrite add_edges_spec. unfold bind. simpl.
  assert (Hall : ∀ rel, rel ∈ (validate (nodes doc) (relationships doc)).1 →
                        insertable net1 rel = true).
  { intros rel Hrel. unfold insertable, has_node.
    assert (Hids : node_ids net1
              = iter_set (valid_node_ids (nodes doc) (relationships doc))).
    { rewrite <- rendered_node_ids. done. }
    rewrite Hids. apply andb_true_iff.
    split; apply bool_decide_eq_true_2; rewrite iter_set_elem;
      rewrite valid_node_ids_endpoints, elem_of_endpoint_ids; exists rel; auto. }
  rewrite filter_all by done. rewrite flat_map_nil.
  2:{ intros rel Hrel. apply edge_failure_insertable. by apply Hall. }
  done.
Qed.

Lemma visualize_graph_doc (doc : GraphDocument) (rest : list GraphDocument) :
  visualize_graph iter_set (Some (doc :: rest))
  = (Ok (Some (rendered iter_set doc)), []).
Proof. unfold visualize_graph. rewrite build_spec. done. Qed.

Lemma rendered_vertex_node (doc : GraphDocument) (v : Vertex) :
  v ∈ net_nodes (rendered iter_set doc) →
  ∃ n, node_dict (nodes doc) !! v_id v = Some n ∧ v = vertex_of "white" n.
Proof.
  unfold rendered, rendered_vertices. simpl. rewrite list_elem_of_omap.
  intros (k & Hk & Hv). apply valid_ids_known in Hk as (n & Hn & Hid).
  rewrite Hn in Hv. simpl in Hv. injection Hv as <-. exists n.
  unfold vertex_of at 1. simpl. by rewrite Hid.
Qed.

Lemma visualize_graph_returns (graph_documents : option (list GraphDocument)) :
  ∃ r, (visualize_graph iter_set graph_documents).1 = Ok r.
Proof.
  destruct graph_documents as [[|doc rest]|].
  - by exists None.
  - rewrite visualize_graph_doc. by eexists.
  - by exists None.
Qed.

Lemma filter_unique_id (vs : list Vertex) (k : string) :
  NoDup (map v_id vs) → k ∈ map v_id vs →
  length (filter (λ v, v_id v = k) vs) = 1.
Proof.
  induction vs as [|v vs IH]; simpl; intros Hnd Hin.
  - by apply elem_of_nil in Hin.
  - apply NoDup_cons in Hnd as [Hv Hnd].
    destruct (decide (v_id v = k)) as [Hk | Hk].
    + rewrite filter_cons_True by done. simpl. f_equal.
      apply length_zero_iff_nil. apply filter_none.
      intros w Hw Hwk. apply Hv. rewrite Hk, <- Hwk.
      apply list_elem_of_fmap. by exists w.
    + rewrite filter_cons_False by done. apply IH; [done|].
      apply elem_of_cons in Hin as [Hin | Hin]; [congruence | done].
Qed.

(** C2. Rendered-graph membership: the graph returned for an extraction
    result has a vertex with id [k] exactly when [k] is the source or the
    target of a relationship whose two endpoints are ids of the node
    list; every vertex shows a node of the list under that id; a node
    that is an endpoint of no such relationship has no vertex. *)
Theorem rendered_membership (doc : GraphDocument) (rest : list GraphDocument) :
  ∃ net,
    visualize_graph iter_set (Some (doc :: rest)) = (Ok (Some net), [])
    ∧ (∀ k, k ∈ node_ids net ↔
         ∃ rel, rel ∈ relationships doc
                ∧ node_id (source rel) ∈ ids_of (nodes doc)
                ∧ node_id (target rel) ∈ ids_of (nodes doc)
                ∧ (k = node_id (source rel) ∨ k = node_id (target rel)))
    ∧ (∀ v, v ∈ net_nodes net →
         ∃ n, node_dict (nodes doc) !! v_id v = Some n ∧ v = vertex_of "white" n)
    ∧ (∀ n, n ∈ nodes doc →
         (∀ rel, rel ∈ relationships doc →
                 node_id (source rel) ∈ ids_of (nodes doc) →
                 node_id (target rel) ∈ ids_of (nodes doc) →
                 node_id n ≠ node_id (source rel) ∧ node_id n ≠ node_id (target rel)) →
         node_id n ∉ node_ids net).
Proof.
  exists (rendered iter_set doc).
  assert (Hmem : ∀ k, k ∈ node_ids (rendered iter_set doc) ↔
         ∃ rel, rel ∈ relationships doc
                ∧ node_id (source rel) ∈ ids_of (nodes doc)
                ∧ node_id (target rel) ∈ ids_of (nodes doc)
                ∧ (k = node_id (source rel) ∨ k = node_id (target rel))).
  { intros k. rewrite rendered_node_ids, iter_set_elem.
    rewrite valid_node_ids_endpoints, elem_of_endpoint_ids.
    split.
    - intros (rel & Hin & Hk). apply elem_of_valid_edges in Hin. naive_solver.
    - intros (rel & Hin & Hs & Ht & Hk). exists rel. split; [|done].
      by apply elem_of_valid_edges. }
  split; [apply visualize_graph_doc|]. split; [exact Hmem|].
  split; [apply rendered_vertex_node|].
  intros n Hn Hiso Hin. apply Hmem in Hin as (rel & Hrel & Hs & Ht & Hk).
  destruct (Hiso rel Hrel Hs Ht). naive_solver.
Qed.

(** C4. Edge labelling: the edges of the returned graph are, in order, one
    edge per kept relationship, from its source id to its target id, with
    the relationship type in lower case as label.  For the scenario
    N = {A, B, C}, R = [(A, WORKS_FOR, C), (A, KNOWS, X)], the kept
    relationships are [(A, WORKS_FOR, C)], the valid ids are {A, C}, and
    the graph has the two vertices A and C and the one edge A -> C labelled
    "works_for"; B and the edge to X are absent. *)
Theorem edge_labeling :
  (∀ doc rest, ∃ net,
      visualize_graph iter_set (Some (doc :: rest)) = (Ok (Some net), [])
      ∧ net_edges net
        = map (λ rel, mkEdge (node_id (source rel)) (node_id (target rel)) "to"
                             (lower (rel_type rel)))
              (valid_edges (nodes doc) (relationships doc)))
  ∧ valid_edges (nodes scenario_doc) (relationships scenario_doc) = [scenario_works_for]
  ∧ valid_node_ids (nodes scenario_doc) (relationships scenario_doc) = {["A"; "C"]}
  ∧ ∃ net,
      visualize_graph iter_set (Some [scenario_doc]) = (Ok (Some net), [])
      ∧ length (net_nodes net) = 2
      ∧ (∀ k, k ∈ node_ids net ↔ k = "A" ∨ k = "C")
      ∧ ("B" ∉ node_ids net)
      ∧ net_edges net = [mkEdge "A" "C" "to" "works_for"].
Proof.
  split; [|split; [|split]].
  - intros doc rest. exists (rendered iter_set doc).
    split; [apply visualize_graph_doc | done].
  - by vm_compute.
  - by vm_compute.
  - exists (rendered iter_set scenario_doc).
    assert (Hids : valid_node_ids (nodes scenario_doc) (relationships scenario_doc)
                   = {["A"; "C"]}) by (by vm_compute).
    assert (Hmem : ∀ k, k ∈ node_ids (rendered iter_set scenario_doc)
                        ↔ k = "A" ∨ k = "C").
    { intros k. rewrite rendered_node_ids, iter_set_elem, Hids. set_solver. }
    split; [apply visualize_graph_doc|]. split; [|split; [exact Hmem|split]].
    + rewrite <- (length_map v_id). fold (node_ids (rendered iter_set scenario_doc)).
      rewrite rendered_node_ids, iter_set_perm, Hids. by vm_compute.
    + rewrite Hmem. intros [? | ?]; discriminate.
    + by vm_compute.
Qed.

(** C6. Empty-input totality: when [valid_node_ids] is empty the builder
    returns a graph with no vertex and no edge, without raising and
    without printing; validation of no nodes and no relationships gives
    [([], set())], and the graph built for it is such an empty graph. *)
Theorem empty_valid_ids_empty_graph :
  (∀ doc rest,
      valid_node_ids (nodes doc) (relationships doc) = ∅ →
      ∃ net, visualize_graph iter_set (Some (doc :: rest)) = (Ok (Some net), [])
             ∧ net_nodes net = [] ∧ net_edges net = [])
  ∧ validate [] [] = ([], ∅)
  ∧ ∃ net, visualize_graph iter_set (Some [empty_doc]) = (Ok (Some net), [])
           ∧ net_nodes net = [] ∧ net_edges net = [].
Proof.
  assert (Hgen : ∀ doc rest,
      valid_node_ids (nodes doc) (relationships doc) = ∅ →
      ∃ net, visualize_graph iter_set (Some (doc :: rest)) = (Ok (Some net), [])
             ∧ net_nodes net = [] ∧ net_edges net = []).
  { intros doc rest Hempty. exists (rendered iter_set doc).
    split; [apply visualize_graph_doc|]. split.
    - assert (Hnil : iter_set (valid_node_ids (nodes doc) (relationships doc)) = []).
      { apply Permutation_nil_r. rewrite iter_set_perm, Hempty.
        by rewrite elements_empty. }
      unfold rendered. simpl. by rewrite Hnil.
    - unfold rendered. simpl.
      destruct (valid_edges (nodes doc) (relationships doc)) as [|rel es] eqn:E; [done|].
      assert (Hin : node_id (source rel) ∈ valid_node_ids (nodes doc) (relationships doc)).
      { rewrite valid_node_ids_endpoints, elem_of_endpoint_ids. exists rel.
        rewrite E. split; [by left | by left]. }
      rewrite Hempty in Hin. set_solver. }
  split; [exact Hgen|]. split; [done|]. apply Hgen. done.
Qed.

(** C7. Builder defensive skip: an edge insertion fails exactly when an
    endpoint is missing from the vertex set; the loop body then leaves the
    graph as it was, prints one line and returns, and the loop goes on
    with the remaining relationships, so for any graph and any list of
    relationships the loop returns the graph extended with the edges of
    all insertable relationships, in order.  The loop bodies never raise
    once the lookup of line 91 succeeds, and [visualize_graph] returns
    for every input. *)
Theorem builder_skips_failed_insertions :
  (∀ net rel,
      insertable net rel = false
      ↔ (node_id (source rel) ∉ node_ids net ∨ node_id (target rel) ∉ node_ids net))
  ∧ (∀ net rel e,
      add_edge (node_id (source rel)) (node_id (target rel)) (lower (rel_type rel)) net
      = Raise e →
      add_edge_body net rel
      = (Ok net, [EvPrintEdgeError (node_id (source rel)) (node_id (target rel)) e]))
  ∧ (∀ net rel rels e,
      add_edge (node_id (source rel)) (node_id (target rel)) (lower (rel_type rel)) net
      = Raise e →
      add_edges (rel :: rels) net
      = ((add_edges rels net).1,
         EvPrintEdgeError (node_id (source rel)) (node_id (target rel)) e
           :: (add_edges rels net).2))
  ∧ (∀ net rels,
      (add_edges rels net).1
      = Ok (with_edges net
              (net_edges net
               ++ map (edge_of net) (filter (λ rel, insertable net rel = true) rels))))
  ∧ (∀ d net k node, d !! k = Some node → ∃ net', (add_node_body d net k).1 = Ok net')
  ∧ (∀ graph_documents, ∃ r, (visualize_graph iter_set graph_documents).1 = Ok r).
Proof.
  split; [|split; [|split; [|split; [|split]]]].
  - intros net rel. unfold insertable, has_node.
    rewrite andb_false_iff, !bool_decide_eq_false. done.
  - intros net rel e He. unfold add_edge_body. rewrite He. done.
  - intros net rel rels e He. unfold add_edges. simpl.
    unfold add_edge_body at 1. rewrite He. done.
  - intros net rels. by rewrite add_edges_spec.
  - intros d net k node Hk. unfold add_node_body. rewrite Hk.
    unfold add_node. destruct (has_node net (node_id node)); by eexists.
  - apply visualize_graph_returns.
Qed.

(** C8. Vertex-insertion idempotence: in the returned graph no two
    vertices share an id, and every valid id, however many kept
    relationships mention it, has exactly one vertex; adding to any
    graph a vertex id that was just added leaves the graph as it is. *)
Theorem vertex_insertion_idempotent :
  (∀ doc rest, ∃ net,
      visualize_graph iter_set (Some (doc :: rest)) = (Ok (Some net), [])
      ∧ NoDup (node_ids net)
      ∧ ∀ k, k ∈ valid_node_ids (nodes doc) (relationships doc) →
             length (filter (λ v, v_id v = k) (net_nodes net)) = 1)
  ∧ (∀ net k label title group label' title' group', ∃ net1,
      add_node k label title group net = Ok net1
      ∧ add_node k label' title' group' net1 = Ok net1).
Proof.
  split.
  - intros doc rest. exists (rendered iter_set doc).
    split; [apply visualize_graph_doc|].
    assert (Hnd : NoDup (node_ids (rendered iter_set doc))).
    { rewrite rendered_node_ids. apply iter_set_NoDup. }
    split; [exact Hnd|]. intros k Hk. apply filter_unique_id; [exact Hnd|].
    fold (node_ids (rendered iter_set doc)).
    by rewrite rendered_node_ids, iter_set_elem.
  - intros net k label title group label' title' group'.
    unfold add_node at 1. destruct (has_node net k) eqn:E.
    + exists net. split; [done|]. unfold add_node. by rewrite E.
    + eexists. split; [done|]. unfold add_node, has_node, node_ids, with_nodes.
      simpl. rewrite bool_decide_eq_true_2; [done|].
      rewrite map_app, elem_of_app. right. simpl. by left.
Qed.

(** C10. Empty extraction batch: [visualize_graph] returns [None] for an
    empty list and for [None]; when the extraction answers an empty list
    or raises, [generate_knowledge_graph_async] returns [(None, None)] and
    the page reports a failure without showing a graph; when it answers a
    document with no valid relationship, a graph with no vertex and no
    edge is returned. *)
Theorem empty_batch_is_failure (x : Extractor) (text : string) (gt : Transformer) :
  visualize_graph iter_set (Some []) = (Ok None, [EvPrintNoDocuments])
  ∧ visualize_graph iter_set None = (Ok None, [EvPrintNoDocuments])
  ∧ (aconvert_to_graph_documents x gt.1 gt.2 text = Ok [] →
     generate_knowledge_graph_async iter_set x text gt
     = (Ok (None, None), [EvExtractionCall text]))
  ∧ (∀ e, aconvert_to_graph_documents x gt.1 gt.2 text = Raise e →
     generate_knowledge_graph_async iter_set x text gt
     = (Ok (None, None), [EvExtractionCall text; EvPrintExtractError e]))
  ∧ (∀ doc rest,
     aconvert_to_graph_documents x gt.1 gt.2 text = Ok (doc :: rest) →
     valid_edges (nodes doc) (relationships doc) = [] →
     ∃ net, generate_knowledge_graph_async iter_set x text gt
            = (Ok (Some net, Some (doc :: rest)), [EvExtractionCall text])
            ∧ net_nodes net = [] ∧ net_edges net = [])
  ∧ (∀ CHAR_LIMIT,
     get_llm x = Ok tt → LLMGraphTransformer x gt.1 gt.2 = Ok tt →
     aconvert_to_graph_documents x gt.1 gt.2 text = Ok [] →
     (len (strip text) > 0)%Z → (len text ≤ CHAR_LIMIT)%Z →
     handle_graph_generation iter_set CHAR_LIMIT x gt.1 gt.2 text
     = (Ok tt, [EvSpinner; EvExtractionCall text; EvError FailedToGenerate])).
Proof.
  split; [done|]. split; [done|].
  assert (Hempty : aconvert_to_graph_documents x gt.1 gt.2 text = Ok [] →
     generate_knowledge_graph_async iter_set x text gt
     = (Ok (None, None), [EvExtractionCall text])).
  { intros Hx. unfold generate_knowledge_graph_async, extract_graph_data.
    rewrite Hx. done. }
  split; [exact Hempty|]. split; [|split].
  - intros e Hx. unfold generate_knowledge_graph_async, extract_graph_data.
    rewrite Hx. done.
  - intros doc rest Hx Hnone.
    exists (rendered iter_set doc). split.
    + unfold generate_knowledge_graph_async, extract_graph_data. rewrite Hx.
      unfold try_except, bind, emit, lift, ret. cbn -[visualize_graph].
      rewrite visualize_graph_doc. done.
    + assert (Hids : valid_node_ids (nodes doc) (relationships doc) = ∅).
      { rewrite valid_node_ids_endpoints, Hnone. done. }
      assert (Hnil : iter_set (valid_node_ids (nodes doc) (relationships doc)) = []).
      { apply Permutation_nil_r. rewrite iter_set_perm, Hids.
        by rewrite elements_empty. }
      unfold rendered. simpl. by rewrite Hnil, Hnone.
  - intros CHAR_LIMIT Hllm Hgt Hx Hstrip Hlen.
    unfold handle_graph_generation.
    assert (H1 : (len (strip text) >? 0)%Z = true) by (apply Z.gtb_lt; lia).
    assert (H2 : (len text <=? CHAR_LIMIT)%Z = true) by (apply Z.leb_le; lia).
    rewrite H1, H2. simpl.
    destruct gt as [ns rs]. simpl in *. unfold process_text_async.
    rewrite Hllm, initialize_graph_transformer_ok by done.
    unfold try_except, bind, emit, lift, ret. simpl.
    specialize (Hempty Hx). simpl in Hempty. rewrite Hempty. done.
Qed.

End Build.

(** C9. Determinism of the core: validation is a function of the node list
    and the relationship list alone, and whatever order the set of valid
    ids is iterated in, building the graph for a document returns without
    raising and without any print or other event, with the same edges in
    the same order, the same options, and the same vertices up to their
    order. *)
Theorem core_is_deterministic (iter1 iter2 : gset string → list string)
    (Hiter1 : ∀ S : gset string, iter1 S ≡ₚ elements S)
    (Hiter2 : ∀ S : gset string, iter2 S ≡ₚ elements S)
    (doc : GraphDocument) (rest : list GraphDocument) :
  ∃ net1 net2,
    visualize_graph iter1 (Some (doc :: rest)) = (Ok (Some net1), [])
    ∧ visualize_graph iter2 (Some (doc :: rest)) = (Ok (Some net2), [])
    ∧ net_nodes net1 ≡ₚ net_nodes net2
    ∧ (∀ v, v ∈ net_nodes net1 ↔ v ∈ net_nodes net2)
    ∧ net_edges net1 = net_edges net2
    ∧ net_edges net1
      = map (edge_of new_network) (validate (nodes doc) (relationships doc)).1
    ∧ list_to_set (node_ids net1) = (validate (nodes doc) (relationships doc)).2
    ∧ net_options net1 = net_options net2.
Proof.
  exists (rendered iter1 doc), (rendered iter2 doc).
  assert (Hperm : net_nodes (rendered iter1 doc) ≡ₚ net_nodes (rendered iter2 doc)).
  { unfold rendered, rendered_vertices. simpl. by rewrite Hiter1, Hiter2. }
  split; [by apply visualize_graph_doc|]. split; [by apply visualize_graph_doc|].
  split; [exact Hperm|]. split; [intros v; by rewrite Hperm|].
  split; [done|]. split; [done|]. split; [|done].
  rewrite rendered_node_ids by done. apply set_eq. intros k.
  rewrite elem_of_list_to_set, Hiter1, elem_of_elements. done.
Qed.

(** *** The size limit *)

Lemma length_substring_prefix (s : string) (n : nat) :
  n ≤ String.length s → String.length (String.substring 0 n s) = n.
Proof.
  revert n. induction s as [|c s IH]; intros n Hn; simpl in *.
  - destruct n; [done | lia].
  - destruct n as [|n]; [done|]. simpl. f_equal. apply IH. lia.
Qed.

Lemma truncate_text_over (text : string) (limit : Z) :
  (0 ≤ limit)%Z → (len text > limit)%Z →
  truncate_text text limit = String.substring 0 (Z.to_nat limit) text
  ∧ len (String.substring 0 (Z.to_nat limit) text) = limit.
Proof.
  intros Hpos Hover. unfold truncate_text, slice_to.
  assert (H1 : (len text >? limit)%Z = true) by (apply Z.gtb_lt; lia).
  assert (H2 : (limit <? 0)%Z = false) by (apply Z.ltb_ge; lia).
  rewrite H1, H2, Z.min_r by lia. split; [done|].
  unfold len in *. rewrite length_substring_prefix by lia. lia.
Qed.

Lemma truthy_str_len (s : string) : truthy_str s = true ↔ (len s > 0)%Z.
Proof. unfold len. destruct s; simpl; split; intros; try done; lia. Qed.

Lemma handle_graph_generation_over (iter_set : gset string → list string)
    (CHAR_LIMIT : Z) (x : Extractor) (cn cr : list string) (text : string) :
  (len text > CHAR_LIMIT)%Z →
  handle_graph_generation iter_set CHAR_LIMIT x cn cr text
  = (Ok tt, [EvSidebarError (if (len (strip text) =? 0)%Z
                             then PleaseEnterText
                             else TextExceedsLimit CHAR_LIMIT)]).
Proof.
  intros Hover. unfold handle_graph_generation.
  assert (H1 : (len text <=? CHAR_LIMIT)%Z = false) by (apply Z.leb_gt; lia).
  assert (H2 : (len text >? CHAR_LIMIT)%Z = true) by (apply Z.gtb_lt; lia).
  rewrite H1, H2, andb_false_r. by destruct (len (strip text) =? 0)%Z.
Qed.

Lemma generate_calls_extraction (iter_set : gset string → list string)
    (x : Extractor) (text : string) (gt : Transformer) :
  ∃ r rest, generate_knowledge_graph_async iter_set x text gt
            = (Ok r, EvExtractionCall text :: rest).
Proof.
  unfold generate_knowledge_graph_async, extract_graph_data.
  destruct (aconvert_to_graph_documents x gt.1 gt.2 text) as [[|doc docs]|e] eqn:E.
  - unfold try_except, bind, emit, lift, ret. simpl. by do 2 eexists.
  - unfold try_except, bind, emit, lift, ret. cbn -[visualize_graph].
    destruct (visualize_graph iter_set (Some (doc :: docs))) as [[net|e] log];
      cbn; by do 2 eexists.
  - unfold try_except, bind, emit, lift, ret. simpl. by do 2 eexists.
Qed.

Lemma handle_graph_generation_runs (iter_set : gset string → list string)
    (CHAR_LIMIT : Z) (x : Extractor) (cn cr : list string) (text : string) :
  (len (strip text) > 0)%Z → (len text ≤ CHAR_LIMIT)%Z →
  get_llm x = Ok tt → LLMGraphTransformer x cn cr = Ok tt →
  ∃ rest, (handle_graph_generation iter_set CHAR_LIMIT x cn cr text).2
          = EvSpinner :: EvExtractionCall text :: rest.
Proof.
  intros Hstrip Hlen Hllm Hgt. unfold handle_graph_generation.
  assert (H1 : (len (strip text) >? 0)%Z = true) by (apply Z.gtb_lt; lia).
  assert (H2 : (len text <=? CHAR_LIMIT)%Z = true) by (apply Z.leb_le; lia).
  rewrite H1, H2. simpl.
  unfold process_text_async. rewrite Hllm, initialize_graph_transformer_ok by done.
  destruct (generate_calls_extraction iter_set x text (cn, cr)) as (r & rest & Hgen).
  unfold try_except, bind, emit, lift, ret.
  cbn -[generate_knowledge_graph_async]. rewrite Hgen.
  cbn -[generate_knowledge_graph_async].
  destruct r as [[net|] [[|doc docs]|]];
    destruct (nonempty cn || nonempty cr); cbn; by eexists.
Qed.

(** C3, as the code has it.  A text longer than [CHAR_LIMIT] that reaches
    [handle_graph_generation] is rejected: the only event is one error in
    the sidebar (the limit error when the text is not blank), so no
    extraction call is made; the same holds for the text-area path.  On the
    upload path such a text is not rejected: it is cut to its first
    [CHAR_LIMIT] characters, a warning says so, and when the button is
    pressed generation runs on the cut text, calling the extraction when
    the cut text is not blank and the collaborator is available. *)
Theorem size_limit_handling (iter_set : gset string → list string)
    (CHAR_LIMIT : Z) (x : Extractor) (cn cr : list string) (text : string)
    (Hover : (len text > CHAR_LIMIT)%Z) :
  (∃ m, handle_graph_generation iter_set CHAR_LIMIT x cn cr text
        = (Ok tt, [EvSidebarError m])
        ∧ (m = PleaseEnterText ∨ m = TextExceedsLimit CHAR_LIMIT))
  ∧ ((len (strip text) > 0)%Z →
     handle_graph_generation iter_set CHAR_LIMIT x cn cr text
     = (Ok tt, [EvSidebarError (TextExceedsLimit CHAR_LIMIT)]))
  ∧ (∀ button,
       extraction_calls (input_text_page iter_set CHAR_LIMIT x cn cr text button).2 = [])
  ∧ ((0 < CHAR_LIMIT)%Z → ∀ button,
       truncate_text text CHAR_LIMIT = String.substring 0 (Z.to_nat CHAR_LIMIT) text
       ∧ len (truncate_text text CHAR_LIMIT) = CHAR_LIMIT
       ∧ (upload_file_page iter_set CHAR_LIMIT x cn cr (Some text) button).2
         = [EvSidebarWarning (TextTruncated (len text) CHAR_LIMIT);
            EvSidebarSuccess (FileLoaded CHAR_LIMIT);
            EvSidebarPreview (truncate_text text CHAR_LIMIT)]
           ++ (if button
               then (handle_graph_generation iter_set CHAR_LIMIT x cn cr
                       (truncate_text text CHAR_LIMIT)).2
               else [])
       ∧ ((len (strip (truncate_text text CHAR_LIMIT)) > 0)%Z →
          get_llm x = Ok tt → LLMGraphTransformer x cn cr = Ok tt →
          ∃ rest,
            (handle_graph_generation iter_set CHAR_LIMIT x cn cr
               (truncate_text text CHAR_LIMIT)).2
            = EvSpinner :: EvExtractionCall (truncate_text text CHAR_LIMIT) :: rest)).
Proof.
  pose proof (handle_graph_generation_over iter_set CHAR_LIMIT x cn cr text Hover) as Hrej.
  split; [|split; [|split]].
  - eexists. split; [exact Hrej|]. destruct (len (strip text) =? 0)%Z; auto.
  - intros Hstrip. rewrite Hrej.
    assert (H0 : (len (strip text) =? 0)%Z = false) by (apply Z.eqb_neq; lia).
    by rewrite H0.
  - intros button. unfold input_text_page.
    assert (H2 : (len text >? CHAR_LIMIT)%Z = true) by (apply Z.gtb_lt; lia).
    rewrite H2, Hrej.
    destruct (truthy_str text); destruct button; simpl;
      destruct (len (strip text) =? 0)%Z; done.
  - intros Hpos button.
    destruct (truncate_text_over text CHAR_LIMIT) as [Hcut Hlen]; [lia | done |].
    rewrite <- Hcut in Hlen. split; [done|]. split; [done|]. split.
    + unfold upload_file_page, load_uploaded_text.
      assert (Htext : truthy_str text = true) by (apply truthy_str_len; lia).
      assert (Hcutt : truthy_str (truncate_text text CHAR_LIMIT) = true)
        by (apply truthy_str_len; lia).
      assert (H2 : (len text >? CHAR_LIMIT)%Z = true) by (apply Z.gtb_lt; lia).
      rewrite Htext, H2, Hlen.
      unfold bind, emit, ret. cbn -[handle_graph_generation truncate_text].
      rewrite Hcutt. destruct button; cbn -[handle_graph_generation truncate_text]; done.
    + intros Hstrip Hllm Hgt. apply handle_graph_generation_runs; try done. lia.
Qed.

(** C3 as stated fails on the upload path: with [CHAR_LIMIT = 5], an
    uploaded text of 8 characters is cut to 5 and the extraction is called
    on the cut text. *)
Lemma upload_over_limit_is_cut_and_run :
  (len "abcdefgh" > 5)%Z
  ∧ (upload_file_page elements 5 (constant_extractor [scenario_doc]) [] []
       (Some "abcdefgh") true).2
    !! 0%nat = Some (EvSidebarWarning (TextTruncated 8 5))
  ∧ extraction_calls
      (upload_file_page elements 5 (constant_extractor [scenario_doc]) [] []
         (Some "abcdefgh") true).2
    = [EvExtractionCall "abcde"]
  ∧ ¬ (∀ (CHAR_LIMIT : Z) (text : string),
         (len text > CHAR_LIMIT)%Z →
         extraction_calls
           (upload_file_page elements CHAR_LIMIT (constant_extractor [scenario_doc])
              [] [] (Some text) true).2 = []).
Proof.
  split; [done|]. split; [by vm_compute|]. split; [by vm_compute|].
  intros H. specialize (H 5%Z "abcdefgh" eq_refl). vm_compute in H. discriminate H.
Qed.

(** ** The theorems at concrete inputs *)

Lemma elements_is_iteration : ∀ S : gset string, elements S ≡ₚ elements S.
Proof. intros S. reflexivity. Defined.

Lemma reverse_elements_is_iteration :
  ∀ S : gset string, reverse (elements S) ≡ₚ elements S.
Proof. intros S. apply reverse_Permutation. Defined.

(** In the scenario, node B, an endpoint of no relationship, has no vertex. *)
Lemma rendered_membership_scenario :
  ∃ net, visualize_graph elements (Some [scenario_doc]) = (Ok (Some net), [])
         ∧ ("B" ∉ node_ids net).
Proof.
  destruct (rendered_membership elements elements_is_iteration scenario_doc [])
    as (net & Hrun & _ & _ & Hiso).
  exists net. split; [exact Hrun|].
  apply (Hiso scenario_B).
  - right. left.
  - intros rel Hrel _ _.
    apply elem_of_cons in Hrel as [-> | Hrel]; [split; discriminate|].
    apply list_elem_of_singleton in Hrel as ->. split; discriminate.
Defined.

(** In the scenario, the one edge is A -> C labelled "works_for". *)
Lemma edge_labeling_scenario :
  ∃ net, visualize_graph elements (Some [scenario_doc]) = (Ok (Some net), [])
         ∧ net_edges net = [mkEdge "A" "C" "to" "works_for"].
Proof.
  destruct (edge_labeling elements elements_is_iteration)
    as (_ & _ & _ & net & Hrun & _ & _ & _ & Hedges).
  exists net. split; [exact Hrun | exact Hedges].
Defined.

(** The document with no node and no relationship gives an empty graph. *)
Lemma empty_doc_empty_graph :
  valid_node_ids (nodes empty_doc) (relationships empty_doc) = ∅
  ∧ ∃ net, visualize_graph elements (Some [empty_doc]) = (Ok (Some net), [])
           ∧ net_nodes net = [] ∧ net_edges net = [].
Proof.
  split; [reflexivity|].
  apply (proj1 (empty_valid_ids_empty_graph elements elements_is_iteration) empty_doc []).
  reflexivity.
Defined.

(** On the graph with A and C, the edge to X is skipped and the edge
    A -> C after it is still inserted. *)
Lemma skip_then_insert_on_graph_A_C :
  (add_edges [scenario_knows; scenario_works_for] graph_A_C).1
  = Ok (with_edges graph_A_C [mkEdge "A" "C" "to" "works_for"]).
Proof.
  destruct (builder_skips_failed_insertions elements elements_is_iteration)
    as (_ & _ & _ & Hloop & _).
  etrans; [apply Hloop|]. by vm_compute.
Defined.

(** In the scenario, A is mentioned by one kept relationship and C by one;
    each has one vertex. *)
Lemma one_vertex_per_id_scenario :
  ∃ net, visualize_graph elements (Some [scenario_doc]) = (Ok (Some net), [])
         ∧ NoDup (node_ids net).
Proof.
  destruct (proj1 (vertex_insertion_idempotent elements elements_is_iteration)
              scenario_doc [])
    as (net & Hrun & Hnd & _).
  exists net. split; [exact Hrun | exact Hnd].
Defined.

(** Iterating the valid ids of the scenario forwards and backwards gives
    the same edges and the same vertices up to order. *)
Lemma deterministic_forwards_backwards :
  ∃ net1 net2,
    visualize_graph elements (Some [scenario_doc]) = (Ok (Some net1), [])
    ∧ visualize_graph (λ S, reverse (elements S)) (Some [scenario_doc])
      = (Ok (Some net2), [])
    ∧ net_nodes net1 ≡ₚ net_nodes net2
    ∧ net_edges net1 = net_edges net2.
Proof.
  destruct (core_is_deterministic elements (λ S, reverse (elements S))
              elements_is_iteration reverse_elements_is_iteration scenario_doc [])
    as (net1 & net2 & H1 & H2 & Hperm & _ & Hedges & _).
  exists net1, net2. repeat split; assumption.
Defined.

(** An extraction that answers the empty list is reported as [(None, None)]. *)
Lemma empty_batch_hello :
  generate_knowledge_graph_async elements (constant_extractor []) "hello" ([], [])
  = (Ok (None, None), [EvExtractionCall "hello"]).
Proof.
  apply (empty_batch_is_failure elements elements_is_iteration
           (constant_extractor []) "hello" ([], [])).
  reflexivity.
Defined.

(** With a limit of 5, the 8-character text is rejected by
    [handle_graph_generation] with the limit error. *)
Lemma size_limit_rejects_abcdefgh :
  (len "abcdefgh" > 5)%Z
  ∧ handle_graph_generation elements 5 (constant_extractor [scenario_doc]) [] []
      "abcdefgh"
    = (Ok tt, [EvSidebarError (TextExceedsLimit 5)]).
Proof.
  split; [reflexivity|].
  apply (size_limit_handling elements 5 (constant_extractor [scenario_doc]) [] []
           "abcdefgh" eq_refl).
  reflexivity.
Defined.

(** ** Further properties of validation and building *)

Lemma node_dict_snoc (ns : list Node) (n : Node) :
  node_dict (ns ++ [n]) = <[node_id n := n]> (node_dict ns).
Proof. unfold node_dict. by rewrite foldl_app. Qed.

Lemma node_dict_lookup_last (ns : list Node) (k : string) :
  node_dict ns !! k = last (filter (λ n, node_id n = k) ns).
Proof.
  induction ns as [|n ns IH] using rev_ind; [done|].
  rewrite node_dict_snoc, filter_app, lookup_insert.
  destruct (decide (node_id n = k)) as [Hk | Hk].
  - rewrite (filter_cons_True _ n) by done. rewrite filter_nil. by rewrite last_snoc.
  - rewrite (filter_cons_False _ n) by done. rewrite filter_nil. by rewrite app_nil_r.
Qed.

(** X1. Duplicate ids: when several nodes of the list carry the same id, the
    lookup keeps the last of them, and the vertex drawn for that id shows
    the type of that last node as its group and tooltip, with the id as
    label. *)
Theorem duplicate_ids_last_node_wins (iter_set : gset string → list string)
    (Hiter : ∀ S : gset string, iter_set S ≡ₚ elements S)
    (doc : GraphDocument) (rest : list GraphDocument) :
  (∀ k, node_dict (nodes doc) !! k = last (filter (λ n, node_id n = k) (nodes doc)))
  ∧ ∃ net,
      visualize_graph iter_set (Some (doc :: rest)) = (Ok (Some net), [])
      ∧ ∀ v, v ∈ net_nodes net →
             ∃ n, last (filter (λ n, node_id n = v_id v) (nodes doc)) = Some n
                  ∧ v_label v = v_id v
                  ∧ v_group v = node_type n
                  ∧ v_title v = node_type n.
Proof.
  split; [intros k; apply node_dict_lookup_last|].
  exists (rendered iter_set doc). split; [by apply visualize_graph_doc|].
  intros v Hv. apply rendered_vertex_node in Hv as (n & Hn & ->); [|done].
  exists n. rewrite <- node_dict_lookup_last. done.
Qed.

Lemma duplicate_ids_last_node_wins_example :
  ∃ net,
    visualize_graph elements
      (Some [mkGraphDocument
               [mkNode "A" "Person" []; mkNode "C" "Org" []; mkNode "A" "Robot" []]
               [scenario_works_for]])
    = (Ok (Some net), [])
    ∧ ∀ v, v ∈ net_nodes net → v_id v = "A" → v_group v = "Robot".
Proof.
  destruct (duplicate_ids_last_node_wins elements elements_is_iteration
              (mkGraphDocument
                 [mkNode "A" "Person" []; mkNode "C" "Org" []; mkNode "A" "Robot" []]
                 [scenario_works_for]) [])
    as (_ & net & Hrun & Hv).
  exists net. split; [exact Hrun|]. intros v Hin Hid.
  destruct (Hv v Hin) as (n & Hlast & _ & Hgroup & _).
  rewrite Hgroup. rewrite Hid in Hlast. vm_compute in Hlast.
  injection Hlast as <-. reflexivity.
Defined.

(** X2. Validation composes over concatenation: validating [R1 ++ R2]
    keeps the relationships kept from [R1] followed by those kept from
    [R2], and the valid ids are the union of the two sets of valid ids. *)
Theorem validate_app (N : list Node) (R1 R2 : list Relationship) :
  valid_edges N (R1 ++ R2) = valid_edges N R1 ++ valid_edges N R2
  ∧ valid_node_ids N (R1 ++ R2) = valid_node_ids N R1 ∪ valid_node_ids N R2.
Proof.
  assert (Hedges : valid_edges N (R1 ++ R2) = valid_edges N R1 ++ valid_edges N R2).
  { rewrite !valid_edges_filter. apply filter_app. }
  split; [exact Hedges|].
  rewrite !valid_node_ids_endpoints, Hedges. unfold endpoint_ids.
  rewrite flat_map_app. apply list_to_set_app_L.
Qed.

Lemma valid_edges_ext (N N' : list Node) (R : list Relationship) :
  ids_of N = ids_of N' → valid_edges N R = valid_edges N' R.
Proof.
  intros Hids. rewrite !valid_edges_filter. apply list_filter_iff. intros rel.
  unfold endpoints_known. rewrite !andb_true_iff, !contains_node_dict, Hids. done.
Qed.

Lemma valid_edges_mono (N N' : list Node) (R : list Relationship) :
  ids_of N ⊆ ids_of N' → sublist (valid_edges N R) (valid_edges N' R).
Proof.
  intros Hsub. rewrite !valid_edges_filter.
  induction R as [|rel R IH]; [done|].
  destruct (endpoints_known (node_dict N) rel) eqn:E.
  - rewrite (filter_cons_True _ rel) by done.
    rewrite (filter_cons_True _ rel).
    + by apply sublist_skip.
    + unfold endpoints_known in *. apply andb_true_iff in E as [E1 E2].
      apply contains_node_dict in E1, E2. apply andb_true_iff.
      split; apply contains_node_dict; set_solver.
  - rewrite (filter_cons_False _ rel) by (rewrite E; discriminate).
    destruct (endpoints_known (node_dict N') rel) eqn:E'.
    + rewrite (filter_cons_True _ rel) by done. by apply sublist_cons.
    + rewrite (filter_cons_False _ rel) by (rewrite E'; discriminate). done.
Qed.

(** X3. Validation sees the node list only through its set of ids: two
    node lists with the same ids (whatever their order, repetitions, types
    or properties) keep the same relationships, and enlarging the set of
    ids can only keep more of them, in the same order. *)
Theorem validation_depends_on_id_set (N N' : list Node) (R : list Relationship)
    (Hsub : ids_of N ⊆ ids_of N') :
  sublist (valid_edges N R) (valid_edges N' R)
  ∧ valid_node_ids N R ⊆ valid_node_ids N' R
  ∧ (ids_of N' ⊆ ids_of N →
     valid_edges N R = valid_edges N' R ∧ valid_node_ids N R = valid_node_ids N' R).
Proof.
  pose proof (valid_edges_mono N N' R Hsub) as Hmono.
  split; [exact Hmono|]. split.
  - intros k. rewrite !valid_node_ids_endpoints, !elem_of_endpoint_ids.
    intros (rel & Hin & Hk). exists rel. split; [|done].
    by eapply elem_of_sublist.
  - intros Hsup. assert (Hids : ids_of N = ids_of N') by set_solver.
    pose proof (valid_edges_ext N N' R Hids) as Heq.
    split; [exact Heq|]. by rewrite !valid_node_ids_endpoints, Heq.
Qed.

Lemma validation_depends_on_id_set_example :
  sublist (valid_edges [scenario_A; scenario_C] (relationships scenario_doc))
          (valid_edges [scenario_C; scenario_X; scenario_A; scenario_A]
                       (relationships scenario_doc)).
Proof.
  apply (validation_depends_on_id_set [scenario_A; scenario_C]
           [scenario_C; scenario_X; scenario_A; scenario_A]
           (relationships scenario_doc)).
  apply (bool_decide_unpack _). by vm_compute.
Defined.

(** X4. Validation is idempotent, and it drops nothing when nothing
    dangles: validating the kept relationships again keeps them all with
    the same valid ids, and when every relationship of the input has both
    endpoint ids in the node list the kept list is the input list. *)
Theorem validate_idempotent (N : list Node) (R : list Relationship) :
  valid_edges N (valid_edges N R) = valid_edges N R
  ∧ valid_node_ids N (valid_edges N R) = valid_node_ids N R
  ∧ ((∀ rel, rel ∈ R →
        node_id (source rel) ∈ ids_of N ∧ node_id (target rel) ∈ ids_of N) →
     valid_edges N R = R)
  ∧ (valid_edges N R = R →
     ∀ rel, rel ∈ R →
       node_id (source rel) ∈ ids_of N ∧ node_id (target rel) ∈ ids_of N).
Proof.
  assert (Hidem : valid_edges N (valid_edges N R) = valid_edges N R).
  { rewrite (valid_edges_filter N (valid_edges N R)). apply filter_all.
    intros rel Hrel. rewrite valid_edges_filter in Hrel.
    by apply list_elem_of_filter in Hrel as [? _]. }
  split; [exact Hidem|]. split; [|split].
  - by rewrite (valid_node_ids_endpoints N (valid_edges N R)), Hidem,
      <- valid_node_ids_endpoints.
  - intros Hall. rewrite valid_edges_filter. apply filter_all. intros rel Hrel.
    unfold endpoints_known. apply andb_true_iff.
    rewrite !contains_node_dict. by apply Hall.
  - intros Heq rel Hrel. rewrite <- Heq in Hrel.
    apply elem_of_valid_edges in Hrel. tauto.
Qed.

Lemma size_list_to_set_le (l : list string) :
  size (list_to_set l : gset string) ≤ length l.
Proof.
  induction l as [|x l IH].
  - rewrite list_to_set_nil, size_empty. done.
  - rewrite list_to_set_cons, size_union_alt, size_singleton. simpl length.
    assert (size (list_to_set l ∖ {[x]} : gset string) ≤ size (list_to_set l : gset string))
      by (apply subseteq_size; set_solver).
    lia.
Qed.

Lemma size_endpoint_ids (es : list Relationship) :
  size (endpoint_ids es) ≤ 2 * length es.
Proof.
  unfold endpoint_ids. etrans; [apply size_list_to_set_le|].
  induction es as [|rel es IH]; [done|].
  cbn [flat_map app length]. lia.
Qed.

(** X5. The returned graph is closed and has no isolated vertex: both
    ends of every edge are vertices of the graph, and every vertex is the
    source or the target of at least one edge. *)
Theorem rendered_graph_is_closed (iter_set : gset string → list string)
    (Hiter : ∀ S : gset string, iter_set S ≡ₚ elements S)
    (doc : GraphDocument) (rest : list GraphDocument) :
  ∃ net,
    visualize_graph iter_set (Some (doc :: rest)) = (Ok (Some net), [])
    ∧ (∀ e, e ∈ net_edges net → e_from e ∈ node_ids net ∧ e_to e ∈ node_ids net)
    ∧ (∀ k, k ∈ node_ids net →
         ∃ e, e ∈ net_edges net ∧ (e_from e = k ∨ e_to e = k)).
Proof.
  exists (rendered iter_set doc). split; [by apply visualize_graph_doc|].
  rewrite rendered_node_ids by done. split.
  - intros e He. unfold rendered in He. simpl in He.
    apply list_elem_of_fmap in He as (rel & -> & Hrel). simpl.
    rewrite !iter_set_elem by done.
    rewrite valid_node_ids_endpoints, !elem_of_endpoint_ids.
    split; exists rel; auto.
  - intros k Hk. rewrite iter_set_elem in Hk by done.
    rewrite valid_node_ids_endpoints, elem_of_endpoint_ids in Hk.
    destruct Hk as (rel & Hrel & Hk). exists (edge_of new_network rel). split.
    + unfold rendered. simpl. apply list_elem_of_fmap. by exists rel.
    + simpl. naive_solver.
Qed.

Lemma rendered_graph_is_closed_scenario :
  ∃ net,
    visualize_graph elements (Some [scenario_doc]) = (Ok (Some net), [])
    ∧ (∀ e, e ∈ net_edges net → e_from e ∈ node_ids net ∧ e_to e ∈ node_ids net).
Proof.
  destruct (rendered_graph_is_closed elements elements_is_iteration scenario_doc [])
    as (net & Hrun & Hclosed & _).
  exists net. split; [exact Hrun | exact Hclosed].
Defined.

(** X6. Sizes: the returned graph has at most as many vertices as the
    document has nodes, at most as many edges as the document has
    relationships, exactly as many edges as relationships were kept, and at
    most two vertices per edge. *)
Theorem rendered_graph_sizes (iter_set : gset string → list string)
    (Hiter : ∀ S : gset string, iter_set S ≡ₚ elements S)
    (doc : GraphDocument) (rest : list GraphDocument) :
  ∃ net,
    visualize_graph iter_set (Some (doc :: rest)) = (Ok (Some net), [])
    ∧ length (net_nodes net) ≤ length (nodes doc)
    ∧ length (net_edges net) ≤ length (relationships doc)
    ∧ length (net_edges net) = length (valid_edges (nodes doc) (relationships doc))
    ∧ length (net_nodes net) ≤ 2 * length (net_edges net).
Proof.
  exists (rendered iter_set doc). split; [by apply visualize_graph_doc|].
  assert (Hn : length (net_nodes (rendered iter_set doc))
               = size (valid_node_ids (nodes doc) (relationships doc))).
  { rewrite <- (length_map v_id). fold (node_ids (rendered iter_set doc)).
    rewrite rendered_node_ids by done. by rewrite Hiter. }
  assert (He : length (net_edges (rendered iter_set doc))
               = length (valid_edges (nodes doc) (relationships doc))).
  { unfold rendered. simpl. by rewrite length_map. }
  split; [|split; [|split; [exact He|]]].
  - rewrite Hn.
    etrans; [apply subseteq_size; intros k; apply validate_postcondition_aux|].
    unfold ids_of. etrans; [apply size_list_to_set_le|]. by rewrite length_map.
  - rewrite He. apply sublist_length. rewrite valid_edges_filter. apply sublist_filter.
  - rewrite Hn, He, valid_node_ids_endpoints. apply size_endpoint_ids.
Qed.

Lemma rendered_graph_sizes_scenario :
  ∃ net,
    visualize_graph elements (Some [scenario_doc]) = (Ok (Some net), [])
    ∧ length (net_nodes net) ≤ 3 ∧ length (net_edges net) ≤ 2.
Proof.
  destruct (rendered_graph_sizes elements elements_is_iteration scenario_doc [])
    as (net & Hrun & Hn & He & _).
  exists net. split; [exact Hrun|]. split; [exact Hn | exact He].
Defined.

(** *** The pipeline, case by case *)

Lemma initialize_graph_transformer_raise (x : Extractor) (ns rs : list string) (e : exn) :
  LLMGraphTransformer x ns rs = Raise e →
  initialize_graph_transformer x ns rs = (Ok None, [EvPrintInitError e]).
Proof.
  intros Hgt. unfold initialize_graph_transformer, new_transformer.
  destruct ns, rs; simpl; rewrite Hgt; done.
Qed.

Lemma generate_cases (iter_set : gset string → list string)
    (Hiter : ∀ S : gset string, iter_set S ≡ₚ elements S)
    (x : Extractor) (text : string) (gt : Transformer) :
  generate_knowledge_graph_async iter_set x text gt
  = match aconvert_to_graph_documents x gt.1 gt.2 text with
    | Raise e => (Ok (None, None), [EvExtractionCall text; EvPrintExtractError e])
    | Ok [] => (Ok (None, None), [EvExtractionCall text])
    | Ok (doc :: rest) =>
        (Ok (Some (rendered iter_set doc), Some (doc :: rest)), [EvExtractionCall text])
    end.
Proof.
  unfold generate_knowledge_graph_async, extract_graph_data.
  destruct (aconvert_to_graph_documents x gt.1 gt.2 text) as [[|doc docs]|e]; try done.
  unfold try_except, bind, emit, lift, ret. cbn -[visualize_graph].
  rewrite visualize_graph_doc by done. done.
Qed.

Lemma process_text_async_cases (iter_set : gset string → list string)
    (Hiter : ∀ S : gset string, iter_set S ≡ₚ elements S)
    (x : Extractor) (text : string) (cn cr : list string) :
  process_text_async iter_set x text cn cr = process_outcome iter_set x text cn cr.
Proof.
  unfold process_text_async, process_outcome.
  destruct (get_llm x) as [[]|e]; [|done].
  destruct (LLMGraphTransformer x cn cr) as [[]|e] eqn:Hgt.
  - rewrite initialize_graph_transformer_ok by done.
    unfold try_except, bind, lift, ret. cbn -[generate_knowledge_graph_async].
    rewrite generate_cases by done. simpl.
    destruct (aconvert_to_graph_documents x cn cr text) as [[|doc docs]|e]; done.
  - rewrite (initialize_graph_transformer_raise x cn cr e) by done. done.
Qed.



(** *** The page: which texts reach the extraction *)

Lemma elem_of_extraction_calls (log : list event) (t : string) :
  EvExtractionCall t ∈ log ↔ EvExtractionCall t ∈ extraction_calls log.
Proof.
  unfold extraction_calls. rewrite list_elem_of_filter. simpl. naive_solver.
Qed.

Lemma all_space_lstrip (s : string) : all_space (lstrip s) = all_space s.
Proof.
  induction s as [|c s IH]; [done|]. simpl.
  destruct (is_space c) eqn:E; simpl; [done | by rewrite E].
Qed.

Lemma rstrip_empty_iff (s : string) : rstrip s = EmptyString ↔ all_space s = true.
Proof.
  induction s as [|c s IH]; [done|]. simpl.
  destruct (rstrip s) as [|c' r].
  - destruct (is_space c); simpl; [tauto|]. split; discriminate.
  - split; [discriminate|]. rewrite andb_true_iff. intros [_ Hs].
    apply IH in Hs. discriminate.
Qed.

Lemma len_strip_zero_iff (s : string) :
  (len (strip s) = 0)%Z ↔ all_space s = true.
Proof.
  unfold strip. rewrite <- all_space_lstrip, <- rstrip_empty_iff.
  unfold len. destruct (rstrip (lstrip s)); simpl; split; intros; try done; lia.
Qed.

Lemma handle_graph_generation_guarded (iter_set : gset string → list string)
    (L : Z) (x : Extractor) (cn cr : list string) (text : string) :
  ((len (strip text) >? 0)%Z && (len text <=? L)%Z) = false →
  extraction_calls (handle_graph_generation iter_set L x cn cr text).2 = [].
Proof.
  intros Hguard. unfold handle_graph_generation. rewrite Hguard.
  destruct (len (strip text) =? 0)%Z; [done|].
  destruct (len text >? L)%Z; done.
Qed.

Lemma handle_graph_generation_calls (iter_set : gset string → list string)
    (Hiter : ∀ S : gset string, iter_set S ≡ₚ elements S)
    (L : Z) (x : Extractor) (cn cr : list string) (text : string) :
  ((len (strip text) >? 0)%Z && (len text <=? L)%Z) = true →
  extraction_calls (handle_graph_generation iter_set L x cn cr text).2
  = extraction_calls (process_outcome iter_set x text cn cr).2.
Proof.
  intros Hguard. unfold handle_graph_generation. rewrite Hguard.
  rewrite process_text_async_cases by done. unfold process_outcome.
  destruct (get_llm x) as [[]|e1]; [|done].
  destruct (LLMGraphTransformer x cn cr) as [[]|e2]; [|done].
  destruct (aconvert_to_graph_documents x cn cr text) as [[|doc docs]|e3]; try done.
  destruct (nonempty cn || nonempty cr); done.
Qed.

Lemma process_outcome_calls (iter_set : gset string → list string)
    (x : Extractor) (text : string) (cn cr : list string) :
  extraction_calls (process_outcome iter_set x text cn cr).2 = []
  ∨ extraction_calls (process_outcome iter_set x text cn cr).2 = [EvExtractionCall text].
Proof.
  unfold process_outcome.
  destruct (get_llm x) as [[]|e1]; [|by left].
  destruct (LLMGraphTransformer x cn cr) as [[]|e2]; [|by left].
  destruct (aconvert_to_graph_documents x cn cr text) as [[|doc docs]|e3]; by right.
Qed.

Lemma handle_graph_generation_call_inv (iter_set : gset string → list string)
    (Hiter : ∀ S : gset string, iter_set S ≡ₚ elements S)
    (L : Z) (x : Extractor) (cn cr : list string) (text t : string) :
  EvExtractionCall t ∈ (handle_graph_generation iter_set L x cn cr text).2 →
  t = text ∧ (len t ≤ L)%Z ∧ all_space t = false.
Proof.
  rewrite elem_of_extraction_calls.
  destruct ((len (strip text) >? 0)%Z && (len text <=? L)%Z) eqn:Hguard.
  - rewrite handle_graph_generation_calls by done.
    destruct (process_outcome_calls iter_set x text cn cr) as [-> | ->].
    + intros Hin. by apply elem_of_nil in Hin.
    + intros Hin. apply list_elem_of_singleton in Hin. injection Hin as ->.
      apply andb_true_iff in Hguard as [H1 H2].
      apply Z.gtb_lt in H1. apply Z.leb_le in H2.
      split; [done|]. split; [done|].
      destruct (all_space text) eqn:E; [|done].
      apply len_strip_zero_iff in E. lia.
  - rewrite handle_graph_generation_guarded by done.
    intros Hin. by apply elem_of_nil in Hin.
Qed.

Lemma input_text_page_log (iter_set : gset string → list string)
    (L : Z) (x : Extractor) (cn cr : list string) (text : string) (button : bool) :
  extraction_calls (input_text_page iter_set L x cn cr text button).2
  = if truthy_str text && button
    then extraction_calls (handle_graph_generation iter_set L x cn cr text).2
    else [].
Proof.
  unfold input_text_page.
  destruct (truthy_str text); destruct button; destruct (len text >? L)%Z; done.
Qed.

Lemma upload_file_page_log (iter_set : gset string → list string)
    (L : Z) (x : Extractor) (cn cr : list string)
    (extracted : option string) (button : bool) :
  extraction_calls (upload_file_page iter_set L x cn cr extracted button).2
  = match extracted with
    | Some text =>
        if truthy_str text && truthy_str (truncate_text text L) && button
        then extraction_calls
               (handle_graph_generation iter_set L x cn cr (truncate_text text L)).2
        else []
    | None => []
    end.
Proof.
  unfold upload_file_page, load_uploaded_text.
  destruct extracted as [text|]; [|done].
  destruct (truthy_str text); [|done].
  destruct (len text >? L)%Z; unfold bind, emit, ret;
    cbn -[handle_graph_generation truncate_text];
    destruct (truthy_str (truncate_text text L)); destruct button; done.
Qed.

(** X8. Which texts reach the extraction: on each of the three entry
    points (a direct call of [handle_graph_generation], the text area, an
    uploaded file) the extraction is called at most once, only when the
    button is pressed, and only with a text that is not blank and has at
    most [CHAR_LIMIT] characters; for an upload that text is the uploaded
    text after [truncate_text]. *)
Theorem extraction_only_within_limit (iter_set : gset string → list string)
    (Hiter : ∀ S : gset string, iter_set S ≡ₚ elements S)
    (CHAR_LIMIT : Z) (x : Extractor) (cn cr : list string) :
  (∀ text t,
      EvExtractionCall t ∈ (handle_graph_generation iter_set CHAR_LIMIT x cn cr text).2 →
      t = text ∧ (len t ≤ CHAR_LIMIT)%Z ∧ all_space t = false)
  ∧ (∀ text button t,
      EvExtractionCall t ∈ (input_text_page iter_set CHAR_LIMIT x cn cr text button).2 →
      button = true ∧ t = text ∧ (len t ≤ CHAR_LIMIT)%Z ∧ all_space t = false)
  ∧ (∀ extracted button t,
      EvExtractionCall t
        ∈ (upload_file_page iter_set CHAR_LIMIT x cn cr extracted button).2 →
      button = true
      ∧ (∃ text, extracted = Some text ∧ t = truncate_text text CHAR_LIMIT)
      ∧ (len t ≤ CHAR_LIMIT)%Z ∧ all_space t = false)
  ∧ (∀ text,
      length (extraction_calls
                (handle_graph_generation iter_set CHAR_LIMIT x cn cr text).2) ≤ 1)
  ∧ (∀ text button,
      length (extraction_calls
                (input_text_page iter_set CHAR_LIMIT x cn cr text button).2) ≤ 1)
  ∧ (∀ extracted button,
      length (extraction_calls
                (upload_file_page iter_set CHAR_LIMIT x cn cr extracted button).2) ≤ 1).
Proof.
  assert (Hone : ∀ text,
      length (extraction_calls
                (handle_graph_generation iter_set CHAR_LIMIT x cn cr text).2) ≤ 1).
  { intros text.
    destruct ((len (strip text) >? 0)%Z && (len text <=? CHAR_LIMIT)%Z) eqn:Hguard.
    - rewrite handle_graph_generation_calls by done.
      destruct (process_outcome_calls iter_set x text cn cr) as [-> | ->]; simpl; lia.
    - rewrite handle_graph_generation_guarded by done. simpl. lia. }
  split; [|split; [|split; [|split; [exact Hone|split]]]].
  - intros text t. by apply handle_graph_generation_call_inv.
  - intros text button t. rewrite elem_of_extraction_calls, input_text_page_log.
    destruct (truthy_str text); destruct button; simpl;
      try (intros Hin; by apply elem_of_nil in Hin).
    rewrite <- elem_of_extraction_calls. intros Hin.
    apply handle_graph_generation_call_inv in Hin; [|done]. tauto.
  - intros extracted button t. rewrite elem_of_extraction_calls, upload_file_page_log.
    destruct extracted as [text|]; [|intros Hin; by apply elem_of_nil in Hin].
    destruct (truthy_str text); destruct (truthy_str (truncate_text text CHAR_LIMIT));
      destruct button; simpl; try (intros Hin; by apply elem_of_nil in Hin).
    rewrite <- elem_of_extraction_calls. intros Hin.
    apply handle_graph_generation_call_inv in Hin as (-> & Hlen & Hsp); [|done].
    split; [done|]. split; [by exists text|]. done.
  - intros text button. rewrite input_text_page_log.
    destruct (truthy_str text && button); [apply Hone | simpl; lia].
  - intros extracted button. rewrite upload_file_page_log.
    destruct extracted as [text|]; [|simpl; lia].
    destruct (truthy_str text && truthy_str (truncate_text text CHAR_LIMIT) && button);
      [apply Hone | simpl; lia].
Qed.

Lemma extraction_only_within_limit_example :
  (len "abcde" ≤ 5)%Z ∧ all_space "abcde" = false.
Proof.
  destruct (extraction_only_within_limit elements elements_is_iteration 5
              (constant_extractor [scenario_doc]) [] [])
    as (_ & _ & Hup & _).
  destruct (Hup (Some "abcdefgh") true "abcde") as (_ & _ & Hlen & Hsp).
  { apply elem_of_extraction_calls. vm_compute. constructor. }
  split; assumption.
Defined.

(** X9. Blank text: a text made of white space only (the empty text
    included) is exactly a text whose [strip] is empty, and
    [handle_graph_generation] answers it with the one message "Please enter
    some text", also when it is longer than [CHAR_LIMIT]; nothing else
    happens. *)
Theorem blank_text_is_rejected (iter_set : gset string → list string)
    (CHAR_LIMIT : Z) (x : Extractor) (cn cr : list string) (text : string)
    (Hblank : all_space text = true) :
  strip text = EmptyString
  ∧ handle_graph_generation iter_set CHAR_LIMIT x cn cr text
    = (Ok tt, [EvSidebarError PleaseEnterText]).
Proof.
  assert (Hstrip : strip text = EmptyString).
  { unfold strip. apply rstrip_empty_iff. by rewrite all_space_lstrip. }
  split; [exact Hstrip|].
  unfold handle_graph_generation. rewrite Hstrip. done.
Qed.

Lemma blank_text_is_rejected_example :
  handle_graph_generation elements 2 (constant_extractor [scenario_doc]) [] [] "      "
  = (Ok tt, [EvSidebarError PleaseEnterText]).
Proof.
  apply (blank_text_is_rejected elements 2 (constant_extractor [scenario_doc]) [] []
           "      " eq_refl).
Defined.

Lemma substring_prefix_suffix (s : string) (n : nat) :
  ∃ suffix, s = String.append (String.substring 0 n s) suffix.
Proof.
  revert n. induction s as [|c s IH]; intros n.
  - exists EmptyString. by destruct n.
  - destruct n as [|n]; simpl.
    + by exists (String c s).
    + destruct (IH n) as [suffix Hs]. exists suffix.
      change (String c s = String c (String.append (String.substring 0 n s) suffix)).
      by f_equal.
Qed.

Lemma append_empty_r (s : string) : String.append s EmptyString = s.
Proof.
  induction s as [|c s IH]; [done|].
  change (String c (String.append s EmptyString) = String c s). by f_equal.
Qed.

(** X10. [truncate_text] under a limit that is not negative: the result
    has [min (len text) limit] characters, is a prefix of the text, is left
    unchanged by a second truncation, and is the text itself exactly when
    the text has at most [limit] characters. *)
Theorem truncate_text_spec (text : string) (limit : Z) (Hlimit : (0 ≤ limit)%Z) :
  len (truncate_text text limit) = Z.min (len text) limit
  ∧ (∃ suffix, text = String.append (truncate_text text limit) suffix)
  ∧ truncate_text (truncate_text text limit) limit = truncate_text text limit
  ∧ (truncate_text text limit = text ↔ (len text ≤ limit)%Z).
Proof.
  assert (Hlen : len (truncate_text text limit) = Z.min (len text) limit).
  { destruct (Z.gt_dec (len text) limit) as [Hgt | Hle].
    - destruct (truncate_text_over text limit Hlimit Hgt) as [-> ->]. lia.
    - unfold truncate_text.
      assert (H1 : (len text >? limit)%Z = false)
        by (apply not_true_is_false; rewrite Z.gtb_lt; lia).
      rewrite H1. lia. }
  split; [exact Hlen|]. split; [|split].
  - unfold truncate_text, slice_to. destruct (len text >? limit)%Z.
    + apply substring_prefix_suffix.
    + exists EmptyString. by rewrite append_empty_r.
  - unfold truncate_text at 1.
    assert (H1 : (len (truncate_text text limit) >? limit)%Z = false)
      by (apply not_true_is_false; rewrite Z.gtb_lt; lia).
    by rewrite H1.
  - split.
    + intros Heq. rewrite Heq in Hlen. lia.
    + intros Hle. unfold truncate_text.
      assert (H1 : (len text >? limit)%Z = false)
        by (apply not_true_is_false; rewrite Z.gtb_lt; lia).
      by rewrite H1.
Qed.

Lemma truncate_text_spec_example :
  len (truncate_text "abcdefgh" 5) = Z.min (len "abcdefgh") 5
  ∧ truncate_text "abcdefgh" 5 = "abcde".
Proof.
  split; [|reflexivity].
  apply (truncate_text_spec "abcdefgh" 5). discriminate.
Defined.



(** X12. The upload path at its edges: when no text could be extracted, or
    the extracted text is empty, the page shows the one error "Could not
    extract text" whatever the button; a text within the limit is loaded
    unchanged and without a truncation warning; and as long as the button is
    not pressed no extraction is called. *)
Theorem upload_edge_cases (iter_set : gset string → list string)
    (CHAR_LIMIT : Z) (x : Extractor) (cn cr : list string) :
  (∀ button,
      upload_file_page iter_set CHAR_LIMIT x cn cr None button
      = (Ok tt, [EvSidebarError CouldNotExtract]))
  ∧ (∀ button,
      upload_file_page iter_set CHAR_LIMIT x cn cr (Some EmptyString) button
      = (Ok tt, [EvSidebarError CouldNotExtract]))
  ∧ (∀ text,
      text ≠ EmptyString → (len text ≤ CHAR_LIMIT)%Z →
      load_uploaded_text CHAR_LIMIT (Some text)
      = (Ok (Some text), [EvSidebarSuccess (FileLoaded (len text)); EvSidebarPreview text])
      ∧ upload_file_page iter_set CHAR_LIMIT x cn cr (Some text) true
        = ((handle_graph_generation iter_set CHAR_LIMIT x cn cr text).1,
           [EvSidebarSuccess (FileLoaded (len text)); EvSidebarPreview text]
           ++ (handle_graph_generation iter_set CHAR_LIMIT x cn cr text).2))
  ∧ (∀ extracted,
      extraction_calls
        (upload_file_page iter_set CHAR_LIMIT x cn cr extracted false).2 = []).
Proof.
  split; [done|]. split; [done|]. split.
  - intros text Hne Hlen.
    assert (Htruthy : truthy_str text = true) by (by destruct text).
    assert (H1 : (len text >? CHAR_LIMIT)%Z = false)
      by (apply not_true_is_false; rewrite Z.gtb_lt; lia).
    assert (Hload : load_uploaded_text CHAR_LIMIT (Some text)
      = (Ok (Some text),
         [EvSidebarSuccess (FileLoaded (len text)); EvSidebarPreview text])).
    { unfold load_uploaded_text, truncate_text. by rewrite Htruthy, H1. }
    split; [exact Hload|].
    unfold upload_file_page. rewrite Hload. unfold bind.
    cbn -[handle_graph_generation]. by rewrite Htruthy.
  - intros extracted. rewrite upload_file_page_log.
    destruct extracted as [text|]; [|done].
    by rewrite andb_false_r.
Qed.

(** X13. A successful run: when the text is not blank and within the
    limit, the collaborator is available and the extraction answers at
    least one document, [handle_graph_generation] calls the extraction once
    with the text, shows the tables of the first document, saves and shows
    the graph built from that document, and reports as metrics the numbers
    of all nodes and all relationships of that document and the length of
    the text; the custom configuration is shown exactly when one of the two
    lists is not empty. *)
Theorem successful_run (iter_set : gset string → list string)
    (Hiter : ∀ S : gset string, iter_set S ≡ₚ elements S)
    (CHAR_LIMIT : Z) (x : Extractor) (cn cr : list string) (text : string)
    (doc : GraphDocument) (rest : list GraphDocument)
    (Hblank : all_space text = false)
    (Hlen : (len text ≤ CHAR_LIMIT)%Z)
    (Hllm : get_llm x = Ok tt)
    (Hgt : LLMGraphTransformer x cn cr = Ok tt)
    (Hx : aconvert_to_graph_documents x cn cr text = Ok (doc :: rest)) :
  handle_graph_generation iter_set CHAR_LIMIT x cn cr text
  = (Ok tt,
     [EvSpinner; EvExtractionCall text; EvDisplayTables doc;
      EvSuccess GeneratedSuccessfully; EvSaveGraph (rendered iter_set doc);
      EvMetrics (length (nodes doc)) (length (relationships doc)) (len text)]
     ++ (if nonempty cn || nonempty cr then [EvInfoCustom cn cr] else [])
     ++ [EvShowGraph (rendered iter_set doc)]).
Proof.
  unfold handle_graph_generation.
  assert (H1 : (len (strip text) >? 0)%Z = true).
  { apply Z.gtb_lt. destruct (Z.eq_dec (len (strip text)) 0) as [H0 | H0].
    - apply len_strip_zero_iff in H0. congruence.
    - unfold len in *. lia. }
  assert (H2 : (len text <=? CHAR_LIMIT)%Z = true) by (apply Z.leb_le; lia).
  rewrite H1, H2. simpl.
  rewrite process_text_async_cases by done. unfold process_outcome.
  rewrite Hllm, Hgt, Hx. destruct (nonempty cn || nonempty cr); done.
Qed.

Lemma successful_run_scenario :
  handle_graph_generation elements 100 (constant_extractor [scenario_doc]) [] [] "Ann works"
  = (Ok tt,
     [EvSpinner; EvExtractionCall "Ann works"; EvDisplayTables scenario_doc;
      EvSuccess GeneratedSuccessfully; EvSaveGraph (rendered elements scenario_doc);
      EvMetrics 3 2 9; EvShowGraph (rendered elements scenario_doc)]).
Proof.
  apply (successful_run elements elements_is_iteration 100
           (constant_extractor [scenario_doc]) [] [] "Ann works" scenario_doc []);
    reflexivity || discriminate.
Defined.

(** *** Custom types *)

Lemma lstrip_starts_clean (s : string) :
  match lstrip s with
  | EmptyString => True
  | String c _ => is_space c = false
  end.
Proof.
  induction s as [|c s IH]; [done|]. simpl.
  destruct (is_space c) eqn:E; [exact IH | exact E].
Qed.

Lemma rstrip_head (c : ascii) (s : string) :
  is_space c = false → ∃ r, rstrip (String c s) = String c r.
Proof.
  intros Hc. simpl. destruct (rstrip s); rewrite ?Hc; by eexists.
Qed.

Lemma rstrip_idempotent (s : string) : rstrip (rstrip s) = rstrip s.
Proof.
  induction s as [|c s IH]; [done|]. simpl.
  destruct (rstrip s) as [|c' r] eqn:E.
  - destruct (is_space c) eqn:Hc; [done|]. simpl. by rewrite Hc.
  - change (rstrip (String c (String c' r)) = String c (String c' r)).
    simpl. simpl in IH. rewrite IH. done.
Qed.

Lemma strip_idempotent (s : string) : strip (strip s) = strip s.
Proof.
  unfold strip. pose proof (lstrip_starts_clean s) as Hclean.
  destruct (lstrip s) as [|c t] eqn:E; [done|].
  destruct (rstrip_head c t Hclean) as [r Hr]. rewrite Hr.
  assert (Hl : lstrip (String c r) = String c r) by (simpl; by rewrite Hclean).
  rewrite Hl, <- Hr. apply rstrip_idempotent.
Qed.

Lemma split_on_nonempty (sep : ascii) (s : string) : split_on sep s ≠ [].
Proof.
  destruct s as [|c s]; [done|]. simpl.
  destruct (bool_decide (c = sep)); [done|]. by destruct (split_on sep s).
Qed.

Lemma split_on_free (sep : ascii) (s : string) :
  Forall (λ p, free_of sep p = true) (split_on sep s).
Proof.
  induction s as [|c s IH]; simpl.
  - by constructor.
  - destruct (bool_decide (c = sep)) eqn:E.
    + by constructor.
    + destruct (split_on sep s) as [|p ps]; [by repeat constructor; simpl; rewrite E|].
      apply Forall_cons in IH as [Hp Hps]. constructor; [|done].
      simpl. by rewrite E, Hp.
Qed.

Lemma lstrip_free (sep : ascii) (s : string) :
  free_of sep s = true → free_of sep (lstrip s) = true.
Proof.
  induction s as [|c s IH]; [done|]. simpl. intros H.
  destruct (is_space c); [|done]. apply IH. by apply andb_true_iff in H as [_ ?].
Qed.

Lemma rstrip_free (sep : ascii) (s : string) :
  free_of sep s = true → free_of sep (rstrip s) = true.
Proof.
  induction s as [|c s IH]; [done|]. simpl. intros H.
  apply andb_true_iff in H as [Hc Hs]. specialize (IH Hs).
  destruct (rstrip s) as [|c' r].
  - destruct (is_space c); [done|]. simpl. by rewrite Hc.
  - simpl. simpl in IH. by rewrite Hc, IH.
Qed.

Lemma split_on_free_id (sep : ascii) (s : string) :
  free_of sep s = true → split_on sep s = [s].
Proof.
  induction s as [|c s IH]; [done|]. simpl. intros H.
  apply andb_true_iff in H as [Hc Hs]. apply negb_true_iff in Hc.
  by rewrite Hc, IH.
Qed.

Lemma split_on_app (sep : ascii) (a b : string) :
  free_of sep a = true →
  split_on sep (String.append a (String sep b)) = a :: split_on sep b.
Proof.
  induction a as [|c a IH]; intros H.
  - change (split_on sep (String sep b) = EmptyString :: split_on sep b).
    simpl. by rewrite bool_decide_eq_true_2.
  - simpl in H. apply andb_true_iff in H as [Hc Ha]. apply negb_true_iff in Hc.
    change (split_on sep (String c (String.append a (String sep b)))
            = String c a :: split_on sep b).
    simpl. by rewrite Hc, IH.
Qed.

Lemma clean_name_strip_space (s : string) :
  clean_name s = true → strip (String " " s) = s ∧ strip s = s ∧ truthy_str s = true.
Proof.
  unfold clean_name. rewrite !andb_true_iff. intros [[Ht _] Hs].
  apply bool_decide_eq_true in Hs. split; [|done].
  unfold strip in *. done.
Qed.

Lemma custom_list_pieces (names : list string) :
  Forall (λ n, clean_name n = true) names → names ≠ [] →
  ∃ first others,
    names = first :: others
    ∧ split_on "," (join ", " names) = first :: map (String " ") others.
Proof.
  induction names as [|n names IH]; intros Hall Hne; [done|].
  apply Forall_cons in Hall as [Hn Hall]. exists n, names. split; [done|].
  assert (Hfree : free_of "," n = true).
  { unfold clean_name in Hn. rewrite !andb_true_iff in Hn. tauto. }
  destruct names as [|m names].
  - simpl. by apply split_on_free_id.
  - destruct IH as (first & others & Heq & Hsplit); [done | done |].
    injection Heq as <- <-.
    change (join ", " (n :: m :: names))
      with (String.append n (String "," (String " " (join ", " (m :: names))))).
    rewrite split_on_app by done. f_equal.
    assert (Hm : free_of "," m = true).
    { apply Forall_cons in Hall as [Hm _].
      unfold clean_name in Hm. rewrite !andb_true_iff in Hm. tauto. }
    change (split_on "," (String " " (join ", " (m :: names))))
      with (match split_on "," (join ", " (m :: names)) with
            | p :: ps => String " " p :: ps
            | [] => [String " " EmptyString]
            end).
    rewrite Hsplit. done.
Qed.

(** X14. Custom node and relationship types: every name handed on is not
    empty, contains no comma and has no white space at either end; nothing
    is handed on when the box is not ticked or the input is blank; and the
    list that the page displays, the names joined by ", ", is read back as
    the same list. *)
Theorem custom_list_spec (input : string) :
  Forall (λ p, clean_name p = true) (custom_list true input)
  ∧ custom_list false input = []
  ∧ (all_space input = true → custom_list true input = [])
  ∧ (∀ names, Forall (λ n, clean_name n = true) names →
              custom_list true (join ", " names) = names).
Proof.
  split; [|split; [done|split]].
  - unfold custom_list. destruct (truthy_str (strip input)); [|by constructor].
    apply Forall_forall. intros p Hp. apply list_elem_of_fmap in Hp as (q & -> & Hq).
    apply list_elem_of_filter in Hq as [Hq Hin].
    pose proof (split_on_free "," input) as Hfree.
    rewrite Forall_forall in Hfree. specialize (Hfree q Hin).
    unfold clean_name. rewrite Hq. simpl. apply andb_true_iff. split.
    + unfold strip. by apply rstrip_free, lstrip_free.
    + apply bool_decide_eq_true. apply strip_idempotent.
  - intros Hblank. unfold custom_list.
    assert (Hs : strip input = EmptyString).
    { unfold strip. apply rstrip_empty_iff. by rewrite all_space_lstrip. }
    by rewrite Hs.
  - intros names Hall. destruct names as [|n names]; [done|].
    destruct (custom_list_pieces (n :: names) Hall) as (first & others & Heq & Hsplit);
      [done|].
    injection Heq as <- <-. unfold custom_list.
    assert (Hn : clean_name n = true) by (by apply Forall_cons in Hall as [? _]).
    assert (Hin : truthy_str (strip (join ", " (n :: names))) = true).
    { destruct (truthy_str (strip (join ", " (n :: names)))) eqn:E; [done|].
      assert (Hblank : all_space (join ", " (n :: names)) = true).
      { apply len_strip_zero_iff. by destruct (strip (join ", " (n :: names))). }
      apply clean_name_strip_space in Hn as (_ & Hs & Ht).
      assert (Hnb : all_space n = true).
      { clear -Hblank. destruct names as [|m names]; [done|].
        change (join ", " (n :: m :: names))
          with (String.append n (String.append ", " (join ", " (m :: names)))) in Hblank.
        revert Hblank. generalize (String.append ", " (join ", " (m :: names))).
        intros rest. induction n as [|c n IH]; [done|].
        change (String.append (String c n) rest) with (String c (String.append n rest)).
        simpl. rewrite !andb_true_iff. intros [? ?]. split; [done | by apply IH]. }
      assert (strip n = EmptyString)
        by (unfold strip; apply rstrip_empty_iff; by rewrite all_space_lstrip).
      destruct n; [done | congruence]. }
    rewrite Hin, Hsplit.
    apply clean_name_strip_space in Hn as (_ & Hs & Ht).
    rewrite filter_cons_True by (by rewrite Hs).
    simpl. rewrite Hs. f_equal.
    apply Forall_cons in Hall as [_ Hall]. clear -Hall.
    induction names as [|m names IH]; [done|].
    apply Forall_cons in Hall as [Hm Hall].
    apply clean_name_strip_space in Hm as (Hsp & Hs & Ht).
    simpl. rewrite filter_cons_True by (by rewrite Hsp).
    simpl. rewrite Hsp. f_equal. by apply IH.
Qed.

(** *** Uploaded files *)

(** X15. Uploaded Word and PowerPoint files never produce a graph: for the
    docx type and the two PowerPoint types [extract_text] returns [None]
    with one warning, without reading the file, and the page then shows
    "Could not extract text" and calls no extraction, whatever the button.
    For a type it does not know, [extract_text] returns the lenient
    decoding of the file's bytes. *)
Theorem office_uploads_are_not_processed (iter_set : gset string → list string)
    (CHAR_LIMIT : Z) (x : Extractor) (cn cr : list string)
    (codec : Codec) (f : UploadedFile) :
  (file_type f = mime_docx ∨ file_type f = mime_ppt ∨ file_type f = mime_pptx →
   (∃ note, extract_text codec f = (None, [note]))
   ∧ ∀ button,
       upload_file_page iter_set CHAR_LIMIT x cn cr (extract_text codec f).1 button
       = (Ok tt, [EvSidebarError CouldNotExtract]))
  ∧ (∀ bytes,
       file_type f ∉ ["text/plain"; "application/pdf"; mime_docx; mime_ppt; mime_pptx] →
       file_read f = Ok bytes →
       extract_text codec f = (Some (decode_utf8_ignore codec bytes), []))
  ∧ (∀ bytes e,
       file_type f = "text/plain" → file_read f = Ok bytes →
       decode_utf8 codec bytes = Raise e →
       extract_text codec f = (None, [ErrExtractingText e])).
Proof.
  split; [|split].
  - intros Htype.
    assert (Hnone : ∃ note, extract_text codec f = (None, [note])).
    { unfold extract_text.
      destruct Htype as [-> | [-> | ->]]; by eexists. }
    split; [exact Hnone|]. intros button. destruct Hnone as [note ->]. done.
  - intros bytes Hnot Hread. unfold extract_text.
    rewrite !not_elem_of_cons in Hnot. destruct Hnot as (H1 & H2 & H3 & H4 & H5 & _).
    rewrite !bool_decide_eq_false_2 by done. simpl. by rewrite Hread.
  - intros bytes e Htype Hread Hdec. unfold extract_text.
    rewrite bool_decide_eq_true_2 by done. by rewrite Hread, Hdec.
Qed.

(** ** The file parser *)

Lemma slice_middle {A} (pre mid post : list A) :
  FileParser.slice (pre ++ mid ++ post) (Z.of_nat (length pre))
    (Z.of_nat (length (pre ++ mid ++ post)) - Z.of_nat (length post))
  = mid.
Proof.
  unfold FileParser.slice, FileParser.clamp. rewrite !length_app.
  assert (H1 : (Z.of_nat (length pre) <? 0)%Z = false) by (apply Z.ltb_ge; lia).
  assert (H2 : ((Z.of_nat (length pre + (length mid + length post))
                 - Z.of_nat (length post)) <? 0)%Z = false) by (apply Z.ltb_ge; lia).
  rewrite H1, H2.
  replace (Z.to_nat (Z.min (Z.of_nat (length pre + (length mid + length post)))
                           (Z.of_nat (length pre))))
    with (length pre) by lia.
  rewrite drop_app_length.
  replace (Z.to_nat _) with (length mid) by lia.
  apply take_app_length.
Qed.

Lemma window_guard (pre mid post : nat) :
  mid ≠ 0 →
  (Z.of_nat pre >=? Z.of_nat (pre + (mid + post)) - Z.of_nat post)%Z = false.
Proof. intros Hmid. apply not_true_is_false. rewrite Z.geb_le. lia. Qed.

(** X16. Skipping units in text, CSV and Word files: when the lines (the
    rows; the paragraphs that are not blank) of the file are
    [pre ++ mid ++ post] with [mid] not empty, skipping [length pre] units
    at the start and [length post] at the end returns exactly [mid]: the
    lines concatenated, the rows joined by a space and then by line feeds,
    the paragraphs joined by line feeds; nothing is printed.  Blank
    paragraphs of a Word file neither appear nor count as units. *)
Theorem skip_units_selects_middle (fs : FileParser.Files) (file_path : string)
    (pre mid post : list string) (rows_pre rows_mid rows_post : list (list string))
    (Hmid : mid ≠ []) (Hrows : rows_mid ≠ []) :
  (FileParser.readlines fs file_path = inr (pre ++ mid ++ post) →
   FileParser.parse_txt fs file_path (Z.of_nat (length pre)) (Z.of_nat (length post))
   = (inr (join EmptyString mid), []))
  ∧ (FileParser.csv_reader fs file_path = inr (rows_pre ++ rows_mid ++ rows_post) →
     FileParser.parse_csv fs file_path
       (Z.of_nat (length rows_pre)) (Z.of_nat (length rows_post))
     = (inr (join FileParser.LF (map (join " ") rows_mid)), []))
  ∧ (∀ texts,
       FileParser.Document fs file_path = inr texts →
       filter (λ t, truthy_str (strip t) = true) texts = pre ++ mid ++ post →
       FileParser.parse_docx fs file_path (Z.of_nat (length pre)) (Z.of_nat (length post))
       = (inr (join FileParser.LF mid), [])).
Proof.
  assert (Hm : length mid ≠ 0) by (by destruct mid).
  assert (Hr : length rows_mid ≠ 0) by (by destruct rows_mid).
  split; [|split].
  - intros Hread. unfold FileParser.parse_txt. rewrite Hread.
    rewrite slice_middle. rewrite !length_app, window_guard by done. done.
  - intros Hread. unfold FileParser.parse_csv. rewrite Hread.
    rewrite slice_middle. rewrite !length_app, window_guard by done. done.
  - intros texts Hread Hfilter. unfold FileParser.parse_docx. rewrite Hread, Hfilter.
    rewrite slice_middle. rewrite !length_app, window_guard by done. done.
Qed.

Lemma skip_units_selects_middle_sample :
  FileParser.parse_txt sample_files "notes.txt" 1 1 = (inr "two;", [])
  ∧ FileParser.parse_csv sample_files "table.csv" 1 1 = (inr "c", [])
  ∧ FileParser.parse_docx sample_files "letter.docx" 1 1 = (inr "Body", []).
Proof.
  destruct (skip_units_selects_middle sample_files "notes.txt"
              ["one;"] ["two;"] ["three;"] [["a"; "b"]] [["c"]] [["d"; "e"]])
    as (Htxt & _ & _); [discriminate | discriminate |].
  destruct (skip_units_selects_middle sample_files "table.csv"
              ["one;"] ["two;"] ["three;"] [["a"; "b"]] [["c"]] [["d"; "e"]])
    as (_ & Hcsv & _); [discriminate | discriminate |].
  destruct (skip_units_selects_middle sample_files "letter.docx"
              ["Title"] ["Body"] ["End"] [["a"; "b"]] [["c"]] [["d"; "e"]])
    as (_ & _ & Hdocx); [discriminate | discriminate |].
  split; [by apply Htxt|]. split; [by apply Hcsv|].
  by apply (Hdocx ["Title"; "  "; "Body"; "End"]).
Defined.

Lemma collect_seqZ {B} (f : Z → FileParser.error + B) (ys : list B) :
  ∀ a : Z,
    (∀ i y, ys !! i = Some y → f (a + Z.of_nat i)%Z = inr y) →
    FileParser.collect f (seqZ a (Z.of_nat (length ys))) = inr ys.
Proof.
  induction ys as [|y ys IH]; intros a Hf; [done|].
  replace (Z.of_nat (length (y :: ys))) with (Z.succ (Z.of_nat (length ys)))
    by (simpl length; lia).
  rewrite seqZ_cons by lia. rewrite Z.pred_succ. cbn [FileParser.collect].
  specialize (Hf 0 y eq_refl) as Hy. rewrite Z.add_0_r in Hy. rewrite Hy.
  rewrite IH; [done|]. intros i z Hz.
  replace (Z.succ a + Z.of_nat i)%Z with (a + Z.of_nat (S i))%Z by lia.
  by apply Hf.
Qed.

Lemma collect_seqZ_fail {B} (f : Z → FileParser.error + B) (e : FileParser.error) (k : nat) :
  ∀ (a n : Z),
    (Z.of_nat k < n)%Z →
    (∀ i, i < k → ∃ y, f (a + Z.of_nat i)%Z = inr y) →
    f (a + Z.of_nat k)%Z = inl e →
    FileParser.collect f (seqZ a n) = inl e.
Proof.
  induction k as [|k IH]; intros a n Hn Hok Hfail.
  - rewrite seqZ_cons by lia. simpl. rewrite Z.add_0_r in Hfail. by rewrite Hfail.
  - rewrite seqZ_cons by lia. simpl.
    destruct (Hok 0) as [y Hy]; [lia|]. rewrite Z.add_0_r in Hy. rewrite Hy.
    rewrite (IH (Z.succ a) (Z.pred n)); [done | lia | |].
    + intros i Hi. replace (Z.succ a + Z.of_nat i)%Z with (a + Z.of_nat (S i))%Z by lia.
      apply Hok. lia.
    + by replace (Z.succ a + Z.of_nat k)%Z with (a + Z.of_nat (S k))%Z by lia.
Qed.

Lemma index_middle {A} (pre mid post : list A) (i : nat) (y : A) :
  mid !! i = Some y →
  FileParser.index (pre ++ mid ++ post) (Z.of_nat (length pre) + Z.of_nat i) = inr y.
Proof.
  intros Hy. unfold FileParser.index.
  assert (H1 : (Z.of_nat (length pre) + Z.of_nat i <? 0)%Z = false)
    by (apply Z.ltb_ge; lia).
  rewrite H1.
  replace (Z.to_nat (Z.of_nat (length pre) + Z.of_nat i)) with (length pre + i) by lia.
  rewrite lookup_app_r by lia.
  replace (length pre + i - length pre) with i by lia.
  by rewrite H1, (lookup_app_l_Some _ _ _ _ Hy).
Qed.

Lemma get_text_middle (doc : FileParser.PdfDocument) (pre mid post : list string)
    (i : nat) (y : string) :
  FileParser.pdf_pages doc = pre ++ mid ++ post → mid !! i = Some y →
  FileParser.get_text doc (Z.of_nat (length pre) + Z.of_nat i) = inr y.
Proof.
  intros Hpages Hy. unfold FileParser.get_text.
  assert (H1 : (Z.of_nat (length pre) + Z.of_nat i <? 0)%Z = false)
    by (apply Z.ltb_ge; lia).
  rewrite H1, Hpages.
  replace (Z.to_nat (Z.of_nat (length pre) + Z.of_nat i)) with (length pre + i) by lia.
  rewrite lookup_app_r by lia.
  replace (length pre + i - length pre) with i by lia.
  by rewrite (lookup_app_l_Some _ _ _ _ Hy).
Qed.

(** X17. Skipping pages and slides: when the pages of a PDF are
    [pre ++ mid ++ post] with [mid] not empty, skipping [length pre] pages
    at the start and [length post] at the end returns the texts of [mid]
    joined by line feeds and prints the first twenty of them; for the
    slides of a presentation it returns, slide by slide of the middle part,
    the text of every shape that has one, each followed by a line feed. *)
Theorem skip_pages_selects_middle (fs : FileParser.Files) (file_path : string)
    (pre mid post : list string) (s_pre s_mid s_post : list (list (option string)))
    (Hmid : mid ≠ []) (Hslides : s_mid ≠ []) :
  (∀ doc,
      FileParser.fitz_open fs file_path = inr doc →
      FileParser.pdf_pages doc = pre ++ mid ++ post →
      FileParser.parse_pdf fs file_path (Z.of_nat (length pre)) (Z.of_nat (length post))
      = (inr (join FileParser.LF mid), [FileParser.PrintPages (take 20 mid)]))
  ∧ (FileParser.Presentation fs file_path = inr (s_pre ++ s_mid ++ s_post) →
     FileParser.parse_pptx fs file_path
       (Z.of_nat (length s_pre)) (Z.of_nat (length s_post))
     = (inr (foldl FileParser.add_shapes EmptyString s_mid), [])).
Proof.
  assert (Hm : length mid ≠ 0) by (by destruct mid).
  assert (Hs : length s_mid ≠ 0) by (by destruct s_mid).
  split.
  - intros doc Hopen Hpages. unfold FileParser.parse_pdf. rewrite Hopen, Hpages.
    rewrite !length_app, window_guard by done. unfold FileParser.range.
    replace (Z.of_nat (length pre + (length mid + length post))
             - Z.of_nat (length post) - Z.of_nat (length pre))%Z
      with (Z.of_nat (length mid)) by lia.
    rewrite collect_seqZ; [done|]. intros i y Hy. by eapply get_text_middle.
  - intros Hopen. unfold FileParser.parse_pptx. rewrite Hopen.
    rewrite !length_app, window_guard by done. unfold FileParser.range.
    replace (Z.of_nat (length s_pre + (length s_mid + length s_post))
             - Z.of_nat (length s_post) - Z.of_nat (length s_pre))%Z
      with (Z.of_nat (length s_mid)) by lia.
    rewrite collect_seqZ; [done|]. intros i y Hy. by apply index_middle.
Qed.

Lemma skip_pages_selects_middle_sample :
  FileParser.parse_pdf sample_files "paper.pdf" 1 1
  = (inr "page 2", [FileParser.PrintPages ["page 2"]])
  ∧ FileParser.parse_pptx sample_files "talk.pptx" 1 1
    = (inr (String.append "second" FileParser.LF), []).
Proof.
  destruct (skip_pages_selects_middle sample_files "paper.pdf"
              ["page 1"] ["page 2"] ["page 3"]
              [[Some "first"]] [[None; Some "second"]] [[Some "third"]])
    as (Hpdf & Hpptx); [discriminate | discriminate |].
  split.
  - by apply (Hpdf (FileParser.mkPdfDocument ["page 1"; "page 2"; "page 3"]
                      (λ i, inl (FileParser.IndexError i)))).
  - by apply Hpptx.
Defined.

(** X18. When the skips leave no unit, in particular for an empty file
    read without skipping: the text, CSV, Word and PowerPoint parsers
    return the empty text and print one warning with the range, whereas the
    PDF parser raises the invalid-page-range error; no page, slide, row or
    line is read. *)
Theorem nothing_left_to_parse (fs : FileParser.Files) (file_path : string)
    (skip_start skip_end : Z) :
  (∀ lines, FileParser.readlines fs file_path = inr lines →
     (Z.of_nat (length lines) - skip_end ≤ skip_start)%Z →
     FileParser.parse_txt fs file_path skip_start skip_end
     = (inr EmptyString,
        [FileParser.WarnInvalidRange "line" file_path skip_start
           (Z.of_nat (length lines) - skip_end)]))
  ∧ (∀ rows, FileParser.csv_reader fs file_path = inr rows →
     (Z.of_nat (length rows) - skip_end ≤ skip_start)%Z →
     FileParser.parse_csv fs file_path skip_start skip_end
     = (inr EmptyString,
        [FileParser.WarnInvalidRange "row" file_path skip_start
           (Z.of_nat (length rows) - skip_end)]))
  ∧ (∀ texts, FileParser.Document fs file_path = inr texts →
     (Z.of_nat (length (filter (λ t, truthy_str (strip t) = true) texts)) - skip_end
      ≤ skip_start)%Z →
     ∃ stop,
       FileParser.parse_docx fs file_path skip_start skip_end
       = (inr EmptyString,
          [FileParser.WarnInvalidRange "paragraph" file_path skip_start stop]))
  ∧ (∀ slides, FileParser.Presentation fs file_path = inr slides →
     (Z.of_nat (length slides) - skip_end ≤ skip_start)%Z →
     FileParser.parse_pptx fs file_path skip_start skip_end
     = (inr EmptyString,
        [FileParser.WarnInvalidRange "slide" file_path skip_start
           (Z.of_nat (length slides) - skip_end)]))
  ∧ (∀ doc, FileParser.fitz_open fs file_path = inr doc →
     (Z.of_nat (length (FileParser.pdf_pages doc)) - skip_end ≤ skip_start)%Z →
     FileParser.parse_pdf fs file_path skip_start skip_end
     = (inl (FileParser.InvalidPageRange skip_start
               (Z.of_nat (length (FileParser.pdf_pages doc)) - skip_end)), []))
  ∧ (FileParser.readlines fs file_path = inr [] →
     FileParser.parse_txt fs file_path 0 0
     = (inr EmptyString, [FileParser.WarnInvalidRange "line" file_path 0 0]))
  ∧ (∀ doc, FileParser.fitz_open fs file_path = inr doc →
     FileParser.pdf_pages doc = [] →
     FileParser.parse_pdf fs file_path 0 0 = (inl (FileParser.InvalidPageRange 0 0), [])).
Proof.
  assert (Hge : ∀ n : Z, (n - skip_end ≤ skip_start)%Z →
                         (skip_start >=? n - skip_end)%Z = true).
  { intros n Hn. apply Z.geb_le. lia. }
  repeat split.
  - intros lines Hread Hle. unfold FileParser.parse_txt. by rewrite Hread, Hge.
  - intros rows Hread Hle. unfold FileParser.parse_csv. by rewrite Hread, Hge.
  - intros texts Hread Hle. unfold FileParser.parse_docx. rewrite Hread, Hge by done.
    by eexists.
  - intros slides Hread Hle. unfold FileParser.parse_pptx. by rewrite Hread, Hge.
  - intros doc Hread Hle. unfold FileParser.parse_pdf. by rewrite Hread, Hge.
  - intros Hread. unfold FileParser.parse_txt. by rewrite Hread.
  - intros doc Hread Hpages. unfold FileParser.parse_pdf. by rewrite Hread, Hpages.
Qed.

Lemma slice_end_beyond {A} (l : list A) (a b : Z) :
  (Z.of_nat (length l) ≤ b)%Z →
  FileParser.slice l a b = FileParser.slice l a (Z.of_nat (length l)).
Proof.
  intros Hb. unfold FileParser.slice. f_equal. f_equal. f_equal.
  unfold FileParser.clamp.
  assert (H1 : (b <? 0)%Z = false) by (apply Z.ltb_ge; lia).
  assert (H2 : (Z.of_nat (length l) <? 0)%Z = false) by (apply Z.ltb_ge; lia).
  rewrite H1, H2. lia.
Qed.

Lemma slice_tail {A} (pre tail : list A) :
  tail ≠ [] →
  FileParser.slice (pre ++ tail) (- Z.of_nat (length tail))
    (Z.of_nat (length (pre ++ tail)))
  = tail.
Proof.
  intros Hne. assert (Hlen : length tail ≠ 0) by (by destruct tail).
  unfold FileParser.slice, FileParser.clamp. rewrite length_app.
  assert (H1 : (- Z.of_nat (length tail) <? 0)%Z = true) by (apply Z.ltb_lt; lia).
  assert (H2 : (Z.of_nat (length pre + length tail) <? 0)%Z = false)
    by (apply Z.ltb_ge; lia).
  rewrite H1, H2.
  replace (Z.to_nat (Z.max 0 (Z.of_nat (length pre + length tail)
                              + - Z.of_nat (length tail))))
    with (length pre) by lia.
  rewrite drop_app_length. apply take_ge. lia.
Qed.

(** X19. Negative skips.  In the text parser a negative [skip_end_pages]
    gives the same text as no skip at the end, and a negative
    [skip_start_pages] of [-k] does not mean "skip nothing": it returns
    the last [k] lines only.  In the PowerPoint parser a negative
    [skip_end_pages] with a start inside the presentation raises an index
    error at the first slide number past the end. *)
Theorem negative_skips (fs : FileParser.Files) (file_path : string) :
  (∀ skip_start skip_end,
      (skip_end < 0)%Z →
      (FileParser.parse_txt fs file_path skip_start skip_end).1
      = (FileParser.parse_txt fs file_path skip_start 0).1)
  ∧ (∀ pre tail,
      tail ≠ [] →
      FileParser.readlines fs file_path = inr (pre ++ tail) →
      FileParser.parse_txt fs file_path (- Z.of_nat (length tail)) 0
      = (inr (join EmptyString tail), []))
  ∧ (∀ slides skip_start skip_end,
      FileParser.Presentation fs file_path = inr slides →
      (0 ≤ skip_start < Z.of_nat (length slides))%Z → (skip_end < 0)%Z →
      FileParser.parse_pptx fs file_path skip_start skip_end
      = (inl (FileParser.IndexError (Z.of_nat (length slides))), [])).
Proof.
  split; [|split].
  - intros skip_start skip_end Hneg. unfold FileParser.parse_txt.
    destruct (FileParser.readlines fs file_path) as [e | lines]; [done|].
    rewrite Z.sub_0_r.
    rewrite (slice_end_beyond lines skip_start (Z.of_nat (length lines) - skip_end))
      by lia.
    destruct (skip_start >=? Z.of_nat (length lines) - skip_end)%Z eqn:E1;
      destruct (skip_start >=? Z.of_nat (length lines))%Z eqn:E2; simpl; try done.
    + apply Z.geb_le in E1. apply not_true_iff_false in E2. rewrite Z.geb_le in E2. lia.
    + apply Z.geb_le in E2.
      unfold FileParser.slice, FileParser.clamp.
      assert (H1 : (skip_start <? 0)%Z = false) by (apply Z.ltb_ge; lia).
      assert (H2 : (Z.of_nat (length lines) <? 0)%Z = false) by (apply Z.ltb_ge; lia).
      rewrite H1, H2.
      replace (Z.to_nat _) with 0 by lia. done.
  - intros pre tail Hne Hread. unfold FileParser.parse_txt. rewrite Hread.
    rewrite Z.sub_0_r, slice_tail by done.
    assert (H1 : (- Z.of_nat (length tail) >=? Z.of_nat (length (pre ++ tail)))%Z = false).
    { apply not_true_iff_false. rewrite Z.geb_le. destruct tail; [done | simpl; lia]. }
    by rewrite H1.
  - intros slides skip_start skip_end Hread Hstart Hneg.
    unfold FileParser.parse_pptx. rewrite Hread.
    assert (H1 : (skip_start >=? Z.of_nat (length slides) - skip_end)%Z = false).
    { apply not_true_iff_false. rewrite Z.geb_le. lia. }
    rewrite H1. unfold FileParser.range.
    rewrite (collect_seqZ_fail _ (FileParser.IndexError (Z.of_nat (length slides)))
               (Z.to_nat (Z.of_nat (length slides) - skip_start))); [done | lia | |].
    + intros i Hi. unfold FileParser.index.
      assert (H2 : (skip_start + Z.of_nat i <? 0)%Z = false) by (apply Z.ltb_ge; lia).
      rewrite !H2.
      destruct (lookup_lt_is_Some_2 slides (Z.to_nat (skip_start + Z.of_nat i)))
        as [y Hy]; [lia|]. rewrite Hy. by eexists.
    + replace (skip_start + Z.of_nat (Z.to_nat (Z.of_nat (length slides) - skip_start)))%Z
        with (Z.of_nat (length slides)) by lia.
      unfold FileParser.index.
      assert (H2 : (Z.of_nat (length slides) <? 0)%Z = false) by (apply Z.ltb_ge; lia).
      rewrite !H2, Nat2Z.id. by rewrite lookup_ge_None_2.
Qed.

Lemma lower_char_dot (c : ascii) :
  bool_decide (lower_char c = "."%char) = bool_decide (c = "."%char).
Proof. destruct c as [[] [] [] [] [] [] [] []]; by vm_compute. Qed.

Lemma lower_free_dot (s : string) : free_of "." (lower s) = free_of "." s.
Proof.
  induction s as [|c s IH]; [done|]. simpl. by rewrite lower_char_dot, IH.
Qed.

Lemma lower_app (a b : string) :
  lower (String.append a b) = String.append (lower a) (lower b).
Proof.
  induction a as [|c a IH]; [done|].
  change (String (lower_char c) (lower (String.append a b))
          = String (lower_char c) (String.append (lower a) (lower b))).
  by f_equal.
Qed.

Lemma split_on_sep_app (sep : ascii) (a b : string) :
  split_on sep (String.append a (String sep b)) = split_on sep a ++ split_on sep b.
Proof.
  induction a as [|c a IH].
  - change (split_on sep (String sep b) = [EmptyString] ++ split_on sep b).
    simpl. by rewrite bool_decide_eq_true_2.
  - change (split_on sep (String c (String.append a (String sep b)))
            = split_on sep (String c a) ++ split_on sep b).
    simpl. rewrite IH. destruct (bool_decide (c = sep)); [done|].
    pose proof (split_on_nonempty sep a). by destruct (split_on sep a).
Qed.

Lemma extension_of_dotted (stem ext : string) :
  free_of "." ext = true →
  FileParser.extension (String.append stem (String "." ext)) = lower ext.
Proof.
  intros Hfree. unfold FileParser.extension.
  rewrite lower_app.
  change (lower (String "." ext)) with (String "." (lower ext)).
  rewrite split_on_sep_app.
  rewrite (split_on_free_id "." (lower ext)) by (by rewrite lower_free_dot).
  by rewrite last_snoc.
Qed.

(** X20. Choice of the parser: for a path [stem.ext] whose [ext] has no
    dot, the parser is chosen by [ext] in lower case, so upper-case
    extensions are recognised; "txt" and "md" both go to the text parser;
    any other extension raises the unsupported-type error with that
    extension, before any file is opened.  A path without a dot is taken
    whole as its own extension. *)
Theorem parse_by_extension (fs : FileParser.Files) (stem ext : string)
    (skip_start skip_end : Z) (Hfree : free_of "." ext = true) :
  FileParser.extension (String.append stem (String "." ext)) = lower ext
  ∧ (lower ext = "pdf" →
     FileParser.parse fs (String.append stem (String "." ext)) skip_start skip_end
     = FileParser.parse_pdf fs (String.append stem (String "." ext)) skip_start skip_end)
  ∧ (lower ext = "docx" →
     FileParser.parse fs (String.append stem (String "." ext)) skip_start skip_end
     = FileParser.parse_docx fs (String.append stem (String "." ext)) skip_start skip_end)
  ∧ (lower ext = "pptx" →
     FileParser.parse fs (String.append stem (String "." ext)) skip_start skip_end
     = FileParser.parse_pptx fs (String.append stem (String "." ext)) skip_start skip_end)
  ∧ (lower ext = "csv" →
     FileParser.parse fs (String.append stem (String "." ext)) skip_start skip_end
     = FileParser.parse_csv fs (String.append stem (String "." ext)) skip_start skip_end)
  ∧ (lower ext = "txt" ∨ lower ext = "md" →
     FileParser.parse fs (String.append stem (String "." ext)) skip_start skip_end
     = FileParser.parse_txt fs (String.append stem (String "." ext)) skip_start skip_end)
  ∧ (lower ext ∉ ["pdf"; "docx"; "pptx"; "csv"; "txt"; "md"] →
     FileParser.parse fs (String.append stem (String "." ext)) skip_start skip_end
     = (inl (FileParser.UnsupportedFileType (lower ext)), []))
  ∧ FileParser.extension ext = lower ext.
Proof.
  pose proof (extension_of_dotted stem ext Hfree) as Hext.
  split; [exact Hext|].
  unfold FileParser.parse. rewrite Hext.
  repeat split.
  - by intros ->.
  - by intros ->.
  - by intros ->.
  - by intros ->.
  - by intros [-> | ->].
  - intros Hnot. rewrite !not_elem_of_cons in Hnot.
    destruct Hnot as (H1 & H2 & H3 & H4 & H5 & H6 & _).
    rewrite !bool_decide_eq_false_2; [done| |done|done|done|done].
    rewrite !not_elem_of_cons. split; [done|]. split; [done|]. apply not_elem_of_nil.
  - unfold FileParser.extension.
    rewrite (split_on_free_id "." (lower ext)) by (by rewrite lower_free_dot). done.
Qed.

Lemma parse_by_extension_sample :
  FileParser.parse sample_files "Report.TXT" 1 1 = (inr "two;", [])
  ∧ FileParser.parse sample_files "archive.zip" 0 0
    = (inl (FileParser.UnsupportedFileType "zip"), []).
Proof.
  destruct (parse_by_extension sample_files "Report" "TXT" 1 1 eq_refl)
    as (_ & _ & _ & _ & _ & Htxt & _).
  destruct (parse_by_extension sample_files "archive" "zip" 0 0 eq_refl)
    as (_ & _ & _ & _ & _ & _ & Hzip & _).
  split.
  - etrans; [apply Htxt; by left | reflexivity].
  - apply Hzip. by apply (bool_decide_unpack _).
Defined.

(** X21. A graph is saved and shown only on success: whatever the text
    and the collaborator, [handle_graph_generation] returns without
    raising, and if its events contain the saving or the showing of a
    graph, then the text passed the guard, the collaborator was available,
    the extraction answered at least one document, and the graph is the one
    built from the first document. *)
Theorem graph_shown_only_on_success (iter_set : gset string → list string)
    (Hiter : ∀ S : gset string, iter_set S ≡ₚ elements S)
    (CHAR_LIMIT : Z) (x : Extractor) (cn cr : list string) (text : string) :
  ∃ log,
    handle_graph_generation iter_set CHAR_LIMIT x cn cr text = (Ok tt, log)
    ∧ ∀ net,
        EvSaveGraph net ∈ log ∨ EvShowGraph net ∈ log →
        all_space text = false ∧ (len text ≤ CHAR_LIMIT)%Z
        ∧ get_llm x = Ok tt ∧ LLMGraphTransformer x cn cr = Ok tt
        ∧ ∃ doc rest,
            aconvert_to_graph_documents x cn cr text = Ok (doc :: rest)
            ∧ net = rendered iter_set doc.
Proof.
  destruct ((len (strip text) >? 0)%Z && (len text <=? CHAR_LIMIT)%Z) eqn:Hguard.
  - assert (Hok : all_space text = false ∧ (len text ≤ CHAR_LIMIT)%Z).
    { apply andb_true_iff in Hguard as [H1 H2].
      apply Z.gtb_lt in H1. apply Z.leb_le in H2. split; [|done].
      destruct (all_space text) eqn:E; [|done].
      apply len_strip_zero_iff in E. lia. }
    unfold handle_graph_generation. rewrite Hguard.
    rewrite process_text_async_cases by done. unfold process_outcome.
    destruct (get_llm x) as [[]|e1] eqn:Hllm;
      [destruct (LLMGraphTransformer x cn cr) as [[]|e2] eqn:Hgt;
       [destruct (aconvert_to_graph_documents x cn cr text) as [[|doc docs]|e3] eqn:Hx|]|].
    + eexists. split; [reflexivity|]. intros net [Hin | Hin]; set_solver.
    + destruct (nonempty cn || nonempty cr); (eexists; split; [reflexivity|]);
        intros net Hin;
        (assert (Hnet : net = rendered iter_set doc) by set_solver);
        (repeat split; try tauto); by exists doc, docs.
    + eexists. split; [reflexivity|]. intros net [Hin | Hin]; set_solver.
    + eexists. split; [reflexivity|]. intros net [Hin | Hin]; set_solver.
    + eexists. split; [reflexivity|]. intros net [Hin | Hin]; set_solver.
  - unfold handle_graph_generation. rewrite Hguard.
    destruct (len (strip text) =? 0)%Z;
      [|destruct (len text >? CHAR_LIMIT)%Z];
      (eexists; split; [reflexivity|]); intros net [Hin | Hin]; set_solver.
Qed.

Lemma graph_shown_only_on_success_scenario :
  ∃ log,
    handle_graph_generation elements 100 (constant_extractor []) [] [] "Ann works"
    = (Ok tt, log).
Proof.
  destruct (graph_shown_only_on_success elements elements_is_iteration 100
              (constant_extractor []) [] [] "Ann works") as (log & Hrun & _).
  exists log. exact Hrun.
Defined.
